(** * DontForget: the memory service of [main.py]

    A shallow embedding of the request handlers of [main.py]
    ([execute_sql], [remember], [remind]) and the properties its
    specification states about them.

    The service is glue between external collaborators: the SQLite
    datastore, the reasoning engine's SDK, the [json] module and the wall
    clock.  They are gathered in one record of collaborators, over which
    the handlers are defined; the handlers themselves follow the source
    line by line, in a state-and-exception monad. *)

From Stdlib Require Import List NArith ZArith Bool Ascii String DecimalString Lia.
Import ListNotations.

Local Open Scope N_scope.

(** * Python strings *)

(** A Python [str] is a sequence of Unicode code points. *)
Definition pystr := list N.

(** An ASCII literal of the source. *)
Definition lit (s : string) : pystr := map N_of_ascii (list_ascii_of_string s).

Definition pystr_eqb (a b : pystr) : bool :=
  if list_eq_dec N.eq_dec a b then true else false.

(** [prefix_of x s]: [s] starts with [x]. *)
Fixpoint prefix_of (x s : pystr) : bool :=
  match x, s with
  | [], _ => true
  | _ :: _, [] => false
  | a :: x', b :: s' => (a =? b) && prefix_of x' s'
  end.

(** Python's [x in s] on strings: [x] occurs in [s] as a substring. *)
Fixpoint str_in (x s : pystr) : bool :=
  prefix_of x s ||
  match s with
  | [] => false
  | _ :: s' => str_in x s'
  end.

(** The specification's reading of [x in s]. *)
Definition substring (x s : pystr) : Prop :=
  exists pre post, s = pre ++ x ++ post.

Section Upper.

(** [str.upper] maps every code point to its uppercase expansion.  On
    ASCII this is the usual shift of [a..z]; the rest is the Unicode
    character database, which is not part of the program: U+0131 goes to
    "I", U+00DF to "SS", and so on. *)
Variable unicode_upper : N -> pystr.

Definition upper_char (c : N) : pystr :=
  if (97 <=? c) && (c <=? 122) then [c - 32]
  else if c <? 128 then [c]
  else unicode_upper c.

Definition upper (s : pystr) : pystr := flat_map upper_char s.

(** Line 59: [any(x in sql_query.upper() for x in [...])]. *)
Definition mutation_keywords : list pystr :=
  [lit "DELETE"; lit "DROP"; lit "UPDATE"; lit "INSERT"].

Definition has_mutation_keyword (sql_query : pystr) : bool :=
  existsb (fun x => str_in x (upper sql_query)) mutation_keywords.

End Upper.

(** A code point [c] is the letter [k] (an uppercase ASCII letter) up to
    case. *)
Definition same_letter (c k : N) : Prop := c = k \/ c = k + 32.

(** [kw] occurs in [s] case-insensitively. *)
Definition occurs_caseless (kw s : pystr) : Prop :=
  exists pre mid post, s = pre ++ mid ++ post /\ Forall2 same_letter mid kw.

(** * Data model *)

(** ** Exceptions

    The exceptions the handlers can see: the ones raised by the Python
    operations they perform themselves, the ones raised inside a
    collaborator ([sqlite3.Error], SDK and network errors,
    [json.JSONDecodeError]), and FastAPI's [HTTPException], which the
    endpoints raise to their caller. *)
Inductive exn :=
| KeyError (key : pystr)
| IndexError (msg : pystr)
| TypeError (msg : pystr)
| AttributeError (msg : pystr)
| ExternalError (msg : pystr)
| HTTPException (status_code : N) (detail : pystr).

Definition decimal (n : N) : pystr :=
  lit (NilZero.string_of_uint (N.to_uint n)).

(** [str(e)]. *)
Definition str_exn (e : exn) : pystr :=
  match e with
  | KeyError key => lit "'" ++ key ++ lit "'"
  | IndexError msg | TypeError msg | AttributeError msg | ExternalError msg => msg
  | HTTPException status_code detail => decimal status_code ++ lit ": " ++ detail
  end.

(** ** Values *)

(** A Python [float], by its IEEE-754 binary64 bit pattern. *)
Definition float64 := Z.

(** What [sqlite3] hands back for a column: [None], [int], [float], [str]
    or [bytes]. *)
Inductive SqlValue :=
| SqlNull
| SqlInt (z : Z)
| SqlReal (x : float64)
| SqlText (s : pystr)
| SqlBlob (b : list N).

(** [str(b)] of a [bytes] value, which is its [repr]: [b'...'], in double
    quotes when the bytes hold a single quote and no double one, with the
    quote and the backslash escaped, tab, newline and return by their
    letter, and any other byte outside the printable ASCII as [\xhh]. *)
Definition hex_digit (n : N) : N := if n <? 10 then 48 + n else 87 + n.

Definition bytes_quote (b : list N) : N :=
  if existsb (N.eqb 39) b && negb (existsb (N.eqb 34) b) then 34 else 39.

Definition byte_repr (quote c : N) : pystr :=
  if (c =? quote) || (c =? 92) then [92; c]
  else if c =? 9 then [92; 116]
  else if c =? 10 then [92; 110]
  else if c =? 13 then [92; 114]
  else if (c <? 32) || (127 <=? c)
       then [92; 120; hex_digit ((c / 16) mod 16); hex_digit (c mod 16)]
       else [c].

Definition str_bytes (b : list N) : pystr :=
  98 :: bytes_quote b :: flat_map (byte_repr (bytes_quote b)) b ++ [bytes_quote b].

(** Python values of JSON shape: the results of [json.loads], the
    arguments of a function call, the input of [json.dumps].  A [dict]
    keeps its insertion order. *)
#[warnings="-register-all"]
Inductive JValue :=
| JNull
| JBool (b : bool)
| JInt (z : Z)
| JFloat (x : float64)
| JStr (s : pystr)
| JArr (items : list JValue)
| JObj (members : list (pystr * JValue)).

Definition type_name (v : JValue) : pystr :=
  match v with
  | JNull => lit "NoneType"
  | JBool _ => lit "bool"
  | JInt _ => lit "int"
  | JFloat _ => lit "float"
  | JStr _ => lit "str"
  | JArr _ => lit "list"
  | JObj _ => lit "dict"
  end.

(** ** Dictionaries *)

Definition dict (V : Type) := list (pystr * V).

Fixpoint dict_get {V} (d : dict V) (k : pystr) : option V :=
  match d with
  | [] => None
  | (k', v) :: d' => if pystr_eqb k' k then Some v else dict_get d' k
  end.

(** [d[k] = v]: an existing key keeps its place, a new one goes last. *)
Fixpoint dict_set {V} (d : dict V) (k : pystr) (v : V) : dict V :=
  match d with
  | [] => [(k, v)]
  | (k', v') :: d' =>
      if pystr_eqb k' k then (k', v) :: d' else (k', v') :: dict_set d' k v
  end.

(** ** Rows of the datastore *)

(** A [sqlite3.Row]: the columns of one result row, each with the name the
    cursor's description gives it. *)
Definition Row := list (pystr * SqlValue).

Definition row_keys (row : Row) : list pystr := map fst row.

Definition is_ascii (s : pystr) : bool := forallb (fun c => c <? 128) s.

Definition ascii_lower (c : N) : N :=
  if (65 <=? c) && (c <=? 90) then c + 32 else c.

(** The comparison [sqlite3.Row] uses for a name: equal, or both ASCII and
    equal up to ASCII case. *)
Definition equal_ignore_case (a b : pystr) : bool :=
  pystr_eqb a b ||
  (is_ascii a && is_ascii b && pystr_eqb (map ascii_lower a) (map ascii_lower b)).

(** [row[k]]: the first column with that name. *)
Fixpoint row_getitem (row : Row) (k : pystr) : option SqlValue :=
  match row with
  | [] => None
  | (name, v) :: row' =>
      if equal_ignore_case k name then Some v else row_getitem row' k
  end.

(** [dict(row)]: for every key of [row.keys()], in order, [d[k] = row[k]].
    A key of the row always has a column, so the lookup cannot fail. *)
Definition dict_of_row (row : Row) : dict SqlValue :=
  fold_left
    (fun d k => match row_getitem row k with
                | Some v => dict_set d k v
                | None => d
                end)
    (row_keys row) [].

(** ** Notes *)

(** The parameters of the INSERT of [remember]: one Note. *)
Record Note := {
  note_text : pystr;
  note_tags : JValue;
  note_timestamp : pystr
}.

(** ** Requests and responses of the API *)

Record ThoughtRequest := { text : pystr }.
Record QueryRequest := { question : pystr }.

(** [{"status": ..., "tags": ...}] *)
Record RememberResponse := { status : pystr; tags : JValue }.
(** [{"answer": ...}] *)
Record RemindResponse := { answer : option pystr }.

(** ** Turns of the reasoning engine *)

Record FunctionCall := {
  fc_name : option pystr;
  args : option (dict JValue)
}.

Record Part := {
  function_call : option FunctionCall;
  part_text : option pystr
}.

Record Content := { parts : option (list Part) }.
Record Candidate := { content : option Content }.

(** A response of the engine.  [response_text] is the SDK's [text]
    property of the response. *)
Record Response := {
  candidates : option (list Candidate);
  response_text : option pystr
}.

(** What [chat.send_message] is given: the user's question, or a
    [types.Part] carrying a function response. *)
Inductive Message :=
| UserText (s : pystr)
| FunctionResponse (name : pystr) (result : pystr).

(** ** Observable events *)

Inductive Event :=
| EvExecuteSql (sql_query : JValue)   (* [execute_sql] is entered *)
| EvConnect                           (* [sqlite3.connect(DB_PATH)] *)
| EvExecute (sql : pystr)             (* [conn.execute(sql)] of [execute_sql] *)
| EvClose                             (* [conn.close()] *)
| EvInsert (n : Note)                 (* the INSERT of [remember] *)
| EvGenerate (prompt : pystr)         (* [client.models.generate_content] *)
| EvChatCreate (sys_instruct : pystr) (* [client.chats.create] *)
| EvSend (m : Message)                (* [chat.send_message] is called *)
| EvTurn (response : Response)        (* the turn it returned *)
| EvPrintQuery (query : JValue)       (* [print] of the query about to run *)
| EvPrintExn (e : exn).               (* [print(e)] *)

Definition is_datastore_event (ev : Event) : bool :=
  match ev with
  | EvConnect | EvExecute _ | EvClose | EvInsert _ => true
  | _ => false
  end.

Definition is_execute_sql_call (ev : Event) : bool :=
  match ev with
  | EvExecuteSql _ => true
  | _ => false
  end.

Definition turn_of (ev : Event) : option Response :=
  match ev with
  | EvTurn response => Some response
  | _ => None
  end.

(** * Collaborators

    Everything [main.py] calls into and does not implement.  The datastore
    and the engine carry a state of their own, which they do not share;
    an operation either returns or raises. *)
Record Collaborators := {
  (** the state of the SQLite file at [DB_PATH] *)
  Db : Type;
  (** the state of the reasoning engine, chat session included *)
  Engine : Type;

  (** the non-ASCII part of [str.upper] *)
  unicode_upper : N -> pystr;
  (** the text [json.dumps] writes for a value of JSON shape *)
  json_encode : JValue -> pystr;
  (** [json.loads] *)
  json_loads : pystr -> exn + JValue;

  (** [sqlite3.connect(DB_PATH)]: [Some e] when it raises *)
  sqlite3_connect : Db -> option exn;
  (** [conn.execute(sql).fetchall()] with [sqlite3.Row] as row factory:
      the rows or the exception, and the state the store is left in *)
  conn_execute : pystr -> Db -> (exn + list Row) * Db;
  (** the INSERT of one Note under [with sqlite3.connect(...)]: the new
      state once committed, or the exception, the store rolled back *)
  conn_insert : Note -> Db -> exn + Db;

  (** [client.models.generate_content(...)]: the [text] of the response *)
  generate_content : pystr -> Engine -> (exn + option pystr) * Engine;
  (** [client.chats.create(...)] with the system instruction *)
  chats_create : pystr -> Engine -> exn + Engine;
  (** [chat.send_message(...)] *)
  send_message : Message -> Engine -> (exn + Response) * Engine;

  (** [datetime.datetime.now().strftime(fmt)] *)
  strftime_now : pystr -> pystr
}.

(** * The monad of the handlers *)

Record World (C : Collaborators) := {
  db : Db C;
  engine : Engine C;
  trace : list Event
}.
Arguments db {C} _.
Arguments engine {C} _.
Arguments trace {C} _.

(** How a piece of Python code ends: with a value, with an exception, or
    not at all (the loop of [remind] has no bound of its own). *)
Inductive outcome (A : Type) :=
| Ret (a : A)
| Raise (e : exn)
| Diverge.
Arguments Ret {A} a.
Arguments Raise {A} e.
Arguments Diverge {A}.

Definition M (C : Collaborators) (A : Type) := World C -> outcome A * World C.

Section Handlers.

Variable C : Collaborators.

Definition ret {A} (a : A) : M C A := fun w => (Ret a, w).

Definition raise {A} (e : exn) : M C A := fun w => (Raise e, w).

Definition diverge {A} : M C A := fun w => (Diverge, w).

Definition bind {A B} (m : M C A) (k : A -> M C B) : M C B :=
  fun w =>
    match m w with
    | (Ret a, w') => k a w'
    | (Raise e, w') => (Raise e, w')
    | (Diverge, w') => (Diverge, w')
    end.

(** [try: m  except Exception as e: h e] *)
Definition try_except {A} (m : M C A) (h : exn -> M C A) : M C A :=
  fun w =>
    match m w with
    | (Raise e, w') => h e w'
    | r => r
    end.

Definition lift {A} (r : exn + A) : M C A :=
  match r with
  | inl e => raise e
  | inr a => ret a
  end.

Definition emit (ev : Event) : M C unit :=
  fun w => (Ret tt, {| db := db w; engine := engine w; trace := trace w ++ [ev] |}).

Definition with_db {A} (f : Db C -> (exn + A) * Db C) : M C A :=
  fun w =>
    let (r, d) := f (db w) in
    lift r {| db := d; engine := engine w; trace := trace w |}.

Definition with_engine {A} (f : Engine C -> (exn + A) * Engine C) : M C A :=
  fun w =>
    let (r, g) := f (engine w) in
    lift r {| db := db w; engine := g; trace := trace w |}.

End Handlers.

Arguments ret {C A} a.
Arguments raise {C A} e.
Arguments diverge {C A}.
Arguments bind {C A B} m k.
Arguments try_except {C A} m h.
Arguments lift {C A} r.
Arguments emit {C} ev.
Arguments with_db {C A} f.
Arguments with_engine {C A} f.

Declare Scope py_scope.
Delimit Scope py_scope with py.
Notation "x <- m ;; k" := (bind m (fun x => k))
  (at level 61, m at next level, right associativity) : py_scope.
Notation "m ;; k" := (bind m (fun _ => k))
  (at level 61, right associativity) : py_scope.
Notation "'try' m 'except' e => h" := (try_except m (fun e => h))
  (at level 61, m at level 200, e name, h at level 61) : py_scope.

(** * The handlers of [main.py] *)

Section Service.

Variable C : Collaborators.
Local Open Scope py_scope.

(** ** The datastore, as the handlers reach it *)

Definition connect : M C unit :=
  emit EvConnect ;;
  with_db (fun d => match sqlite3_connect C d with
                    | Some e => (inl e, d)
                    | None => (inr tt, d)
                    end).

Definition execute_fetchall (sql : pystr) : M C (list Row) :=
  emit (EvExecute sql) ;;
  with_db (conn_execute C sql).

Definition close : M C unit := emit EvClose.

Definition insert_note (n : Note) : M C unit :=
  with_db (fun d => match conn_insert C n d with
                    | inl e => (inl e, d)
                    | inr d' => (inr tt, d')
                    end) ;;
  emit (EvInsert n).

(** ** [execute_sql] (lines 56-69) *)

Definition read_only_error : pystr := lit "Error: Read-only access allowed.".
Definition no_results : pystr := lit "No results found.".
Definition sql_error (e : exn) : pystr := lit "SQL Error: " ++ str_exn e.

(** What [default=str] makes of a column value: [bytes] is the one type
    of [sqlite3] that [json] does not serialize natively. *)
Definition jsonable (v : SqlValue) : JValue :=
  match v with
  | SqlNull => JNull
  | SqlInt z => JInt z
  | SqlReal x => JFloat x
  | SqlText s => JStr s
  | SqlBlob b => JStr (str_bytes b)
  end.

Definition json_object (d : dict SqlValue) : JValue :=
  JObj (map (fun kv => (fst kv, jsonable (snd kv))) d).

(** [json.dumps(rows, default=str)] *)
Definition json_dumps_default_str (rows : list (dict SqlValue)) : pystr :=
  json_encode C (JArr (map json_object rows)).

Definition execute_sql (sql_query : JValue) : M C pystr :=
  emit (EvExecuteSql sql_query) ;;
  try
    match sql_query with
    | JStr q =>
        if has_mutation_keyword (unicode_upper C) q
        then ret read_only_error
        else
          connect ;;
          fetched <- execute_fetchall q ;;
          let rows := map dict_of_row fetched in
          close ;;
          match rows with
          | [] => ret no_results
          | _ :: _ => ret (json_dumps_default_str rows)
          end
    | _ =>
        (* [sql_query.upper()] on a value that is not a [str] *)
        raise (AttributeError (lit "'" ++ type_name sql_query
                               ++ lit "' object has no attribute 'upper'"))
    end
  except e => ret (sql_error e).

(** ** [remember] (lines 77-96) *)

Definition classifier_prompt (request : ThoughtRequest) : pystr :=
  lit "Analyze this thought for a database. Input: '" ++ text request
  ++ lit "'. Output JSON keys: 'tags' (csv strings).".

(** [json.loads(resp.text)] *)
Definition loads_text (resp_text : option pystr) : M C JValue :=
  match resp_text with
  | None =>
      raise (TypeError
        (lit "the JSON object must be str, bytes or bytearray, not NoneType"))
  | Some s => lift (json_loads C s)
  end.

(** [v.get(key, default)] *)
Definition method_get (v : JValue) (key : pystr) (default : JValue) : M C JValue :=
  match v with
  | JObj d =>
      match dict_get d key with
      | Some x => ret x
      | None => ret default
      end
  | _ =>
      raise (AttributeError (lit "'" ++ type_name v
                             ++ lit "' object has no attribute 'get'"))
  end.

Definition client_generate_content (prompt : pystr) : M C (option pystr) :=
  emit (EvGenerate prompt) ;;
  with_engine (generate_content C prompt).

(** The body of the [try] of [remember] (lines 80-94). *)
Definition remember_body (request : ThoughtRequest) : M C RememberResponse :=
  let prompt := classifier_prompt request in
  resp_text <- client_generate_content prompt ;;
  parsed <- loads_text resp_text ;;
  tags <- method_get parsed (lit "tags") (JStr (lit "general")) ;;
  let ts := strftime_now C (lit "%Y-%m-%d %H:%M:%S") in
  connect ;;
  insert_note {| note_text := text request;
                 note_tags := tags;
                 note_timestamp := ts |} ;;
  ret {| status := lit "saved"; tags := tags |}.

Definition remember (request : ThoughtRequest) : M C RememberResponse :=
  try remember_body request
  except e => raise (HTTPException 500 (str_exn e)).

(** ** [remind] (lines 98-133) *)

Definition newline : pystr := [10].

Definition sys_instruct (today : pystr) : pystr :=
  newline
  ++ lit "        You are 'DontForget', a memory assistant. Date: " ++ today
  ++ lit "." ++ newline
  ++ lit "        Database: 'memory' table (text, tags, timestamp)." ++ newline
  ++ lit "        Goal: Answer user question by writing/executing SQL using 'execute_sql' tool."
  ++ newline
  ++ lit "        Use FTS5 matching or LIKE for dates. Self-correct if SQL fails."
  ++ newline
  ++ lit "        ".

Definition chat_send_message (m : Message) : M C Response :=
  emit (EvSend m) ;;
  response <- with_engine (send_message C m) ;;
  emit (EvTurn response) ;;
  ret response.

(** [response.candidates[0].content.parts[0]] *)
Definition first_part (response : Response) : exn + Part :=
  match candidates response with
  | None => inl (TypeError (lit "'NoneType' object is not subscriptable"))
  | Some [] => inl (IndexError (lit "list index out of range"))
  | Some (candidate :: _) =>
      match content candidate with
      | None => inl (AttributeError (lit "'NoneType' object has no attribute 'parts'"))
      | Some c =>
          match parts c with
          | None => inl (TypeError (lit "'NoneType' object is not subscriptable"))
          | Some [] => inl (IndexError (lit "list index out of range"))
          | Some (part :: _) => inr part
          end
      end
  end.

(** [call.args["sql_query"]] *)
Definition args_getitem (call : FunctionCall) (key : pystr) : exn + JValue :=
  match args call with
  | None => inl (TypeError (lit "'NoneType' object is not subscriptable"))
  | Some d =>
      match dict_get d key with
      | Some v => inr v
      | None => inl (KeyError key)
      end
  end.

(** The ReAct loop (lines 117-128).  [fuel] bounds the number of times
    the loop condition is evaluated; the source has no such bound. *)
Fixpoint react_loop (fuel : nat) (response : Response) : M C Response :=
  match fuel with
  | O => diverge
  | S fuel' =>
      part <- lift (first_part response) ;;
      match function_call part with
      | None => ret response
      | Some _ =>
          part <- lift (first_part response) ;;
          match function_call part with
          | None =>
              raise (AttributeError (lit "'NoneType' object has no attribute 'args'"))
          | Some call =>
              query <- lift (args_getitem call (lit "sql_query")) ;;
              emit (EvPrintQuery query) ;;
              result <- execute_sql query ;;
              response <- chat_send_message
                            (FunctionResponse (lit "execute_sql") result) ;;
              react_loop fuel' response
          end
      end
  end.

Definition retrieval_failed : pystr := lit "Memory retrieval failed.".

Definition client_chats_create (instruct : pystr) : M C unit :=
  emit (EvChatCreate instruct) ;;
  with_engine (fun g => match chats_create C instruct g with
                        | inl e => (inl e, g)
                        | inr g' => (inr tt, g')
                        end).

(** The body of the [try] of [remind] (lines 101-130). *)
Definition remind_body (fuel : nat) (request : QueryRequest) : M C RemindResponse :=
  let today := strftime_now C (lit "%Y-%m-%d") in
  client_chats_create (sys_instruct today) ;;
  response <- chat_send_message (UserText (question request)) ;;
  response <- react_loop fuel response ;;
  ret {| answer := response_text response |}.

Definition remind (fuel : nat) (request : QueryRequest) : M C RemindResponse :=
  try remind_body fuel request
  except e =>
    (emit (EvPrintExn e) ;;
     raise (HTTPException 500 retrieval_failed)).

End Service.

Arguments Build_World {C} db engine trace.

(** * Notions of the specification *)

(** [w] with [evs] appended to its trace. *)
Definition logged {C} (w : World C) (evs : list Event) : World C :=
  Build_World (db w) (engine w) (trace w ++ evs).

(** The refusal of a query: the read-only error is returned, and entering
    the function is all that has happened. *)
Definition refuses (C : Collaborators) (q : pystr) (w : World C) : Prop :=
  execute_sql C (JStr q) w
  = (Ret read_only_error, logged w [EvExecuteSql (JStr q)]).

(** The number of times [execute_sql] was entered. *)
Definition execute_sql_calls (evs : list Event) : nat :=
  List.length (filter is_execute_sql_call evs).

(** The events of the datastore. *)
Definition datastore_events (evs : list Event) : list Event :=
  filter is_datastore_event evs.

(** ** The keys of [dict(row)] *)

(** [row[k]], for a key that has a column. *)
Definition value_at (row : Row) (k : pystr) : SqlValue :=
  match row_getitem row k with
  | Some v => v
  | None => SqlNull
  end.

Definition item_at (row : Row) (k : pystr) : pystr * SqlValue :=
  (k, value_at row k).

(** The names of [keys], each once, in the order of their first
    occurrence; [seen] are names met before. *)
Fixpoint distinct_after (seen keys : list pystr) : list pystr :=
  match keys with
  | [] => []
  | k :: keys' =>
      if existsb (pystr_eqb k) seen then distinct_after seen keys'
      else k :: distinct_after (k :: seen) keys'
  end.

Definition distinct (keys : list pystr) : list pystr := distinct_after [] keys.

(** No two columns have the same name up to ASCII case: what the columns
    of one table are. *)
Fixpoint unambiguous (names : list pystr) : bool :=
  match names with
  | [] => true
  | k :: names' =>
      negb (existsb (fun k' => equal_ignore_case k' k) names') && unambiguous names'
  end.

(** The columns of a Note, as the INSERT of [remember] names them
    (line 91). *)
Definition note_columns : list pystr := [lit "text"; lit "tags"; lit "timestamp"].

(** ** Turns of the engine, as the loop sees them *)

(** [response] carries a function call in some part of some candidate. *)
Definition contains_tool_invocation (response : Response) : Prop :=
  exists cs candidate c ps part call,
    candidates response = Some cs /\ In candidate cs /\
    content candidate = Some c /\ parts c = Some ps /\ In part ps /\
    function_call part = Some call.

(** The first part of the first candidate carries a function call whose
    arguments hold [query] under ["sql_query"]. *)
Definition tool_turn (query : JValue) (response : Response) : Prop :=
  exists part call,
    first_part response = inr part /\ function_call part = Some call /\
    args_getitem call (lit "sql_query") = inr query.

(** The first part of the first candidate carries no function call. *)
Definition final_turn (response : Response) : Prop :=
  exists part, first_part response = inr part /\ function_call part = None.

(** [response] has just been returned and the engine is in state [g]:
    [response] and the next [n - 1] turns are tool turns, whatever the
    engine is sent, and the turn after them is final. *)
Fixpoint tool_turns_left (C : Collaborators) (n : nat)
    (response : Response) (g : Engine C) : Prop :=
  match n with
  | O => final_turn response
  | S n' =>
      (exists query, tool_turn query response) /\
      forall m, exists response' g',
        send_message C m g = (inr response', g') /\
        tool_turns_left C n' response' g'
  end.

(** The engine, in state [g], returns a final turn on its [N]th call,
    after [N - 1] tool turns. *)
Definition answers_on_call (C : Collaborators) (N : nat) (g : Engine C) : Prop :=
  match N with
  | O => False
  | S n =>
      forall m, exists response g',
        send_message C m g = (inr response, g') /\
        tool_turns_left C n response g'
  end.

(** The turns among the events, in order. *)
Definition turns (evs : list Event) : list Response :=
  flat_map (fun ev => match turn_of ev with
                      | Some r => [r]
                      | None => []
                      end) evs.

(** ** Failures of the classification *)

(** The Tag Classifier call, or the parse of its answer, raises [e] for
    [request] in the world [w]. *)
Inductive classification_fails (C : Collaborators)
    (request : ThoughtRequest) (w : World C) : exn -> Prop :=
| classifier_raises e g :
    generate_content C (classifier_prompt request) (engine w) = (inl e, g) ->
    classification_fails C request w e
| answer_has_no_text g :
    generate_content C (classifier_prompt request) (engine w) = (inr None, g) ->
    classification_fails C request w
      (TypeError (lit "the JSON object must be str, bytes or bytearray, not NoneType"))
| answer_is_not_json s e g :
    generate_content C (classifier_prompt request) (engine w) = (inr (Some s), g) ->
    json_loads C s = inl e ->
    classification_fails C request w e.

(** ** What is assumed of the [json] module *)

(** A Unicode scalar value: a code point that is not a surrogate. *)
Definition scalar_value (c : N) : bool :=
  (c <? 0xd800) || ((0xdfff <? c) && (c <? 0x110000)).

(** Text as UTF-8 decodes to: scalar values only. *)
Definition is_text (s : pystr) : bool := forallb scalar_value s.

(** A NaN: all exponent bits set, some fraction bit set. *)
Definition is_nan (x : float64) : bool :=
  (Z.land (Z.shiftr x 52) 0x7ff =? 0x7ff)%Z
  && negb (Z.land x 0xfffffffffffff =? 0)%Z.

(** The values on which [json.loads] undoes [json.dumps]: strings are
    text, floats are numbers, and no object has a key twice, as in a
    Python [dict]. *)
Fixpoint json_wf (v : JValue) : Prop :=
  match v with
  | JStr s => is_text s = true
  | JFloat x => is_nan x = false
  | JArr items => fold_right (fun x P => json_wf x /\ P) True items
  | JObj members =>
      NoDup (map fst members) /\
      fold_right
        (fun kv P => (let '(k, x) := kv in is_text k = true /\ json_wf x) /\ P)
        True members
  | _ => True
  end.

(** Rows as [sqlite3] builds them: names and TEXT values are decoded from
    UTF-8, and a REAL is never a NaN (SQLite stores NULL for it). *)
Definition sql_wf (v : SqlValue) : bool :=
  match v with
  | SqlText s => is_text s
  | SqlReal x => negb (is_nan x)
  | _ => true
  end.

Definition row_wf (row : Row) : bool :=
  forallb (fun kv => is_text (fst kv) && sql_wf (snd kv)) row.

Record JsonLaws (C : Collaborators) : Prop := {
  (** [json.loads(json.dumps(v)) == v] *)
  loads_encode : forall v, json_wf v -> json_loads C (json_encode C v) = inr v;
  (** the text of a list starts with its opening bracket *)
  encode_array : forall items, exists t, json_encode C (JArr items) = 91 :: t
}.

(** * Test doubles

    Concrete collaborators, on which the handlers run by computation: a
    store that is the list of its Notes and answers a handful of queries
    the way SQLite does, a reasoning engine that plays a script, and a
    codec that stands in for the [json] module. *)
Module Stub.

(** A few lines of the uppercase table beyond ASCII. *)
Definition unicode_upper (c : N) : pystr :=
  if c =? 0x131 then lit "I"
  else if c =? 0x17f then lit "S"
  else if c =? 0xdf then lit "SS"
  else [c].

(** ** The codec

    A prefix code: a tag, then a length for what has one.  The tag of a
    list is the opening bracket. *)
Definition signed (sign : N) (n : N) : Z :=
  if sign =? 0 then Z.of_N n else (- Z.of_N n)%Z.

Definition sign_of (z : Z) : N := if (z <? 0)%Z then 1 else 0.

Fixpoint encode (v : JValue) : pystr :=
  match v with
  | JNull => [110]
  | JBool true => [116]
  | JBool false => [102]
  | JInt z => [105; sign_of z; Z.abs_N z]
  | JFloat x => [100; sign_of x; Z.abs_N x]
  | JStr s => 34 :: N.of_nat (List.length s) :: s
  | JArr items =>
      91 :: N.of_nat (List.length items) :: flat_map encode items
  | JObj members =>
      123 :: N.of_nat (List.length members)
      :: flat_map (fun kv => let '(k, x) := kv in
                             N.of_nat (List.length k) :: k ++ encode x) members
  end.

Definition take (n : nat) (s : pystr) : option (pystr * pystr) :=
  if (List.length s <? n)%nat then None else Some (firstn n s, skipn n s).

Section Sequences.

(** How one value is decoded. *)
Variable one : pystr -> option (JValue * pystr).

Fixpoint decode_items (count : nat) (r : pystr)
  : option (list JValue * pystr) :=
  match count with
  | O => Some ([], r)
  | S count' =>
      match one r with
      | Some (x, r') =>
          match decode_items count' r' with
          | Some (xs, r'') => Some (x :: xs, r'')
          | None => None
          end
      | None => None
      end
  end.

Fixpoint decode_members (count : nat) (r : pystr)
  : option (list (pystr * JValue) * pystr) :=
  match count with
  | O => Some ([], r)
  | S count' =>
      match r with
      | klen :: r0 =>
          match take (N.to_nat klen) r0 with
          | Some (k, r1) =>
              match one r1 with
              | Some (x, r2) =>
                  match decode_members count' r2 with
                  | Some (kvs, r3) => Some ((k, x) :: kvs, r3)
                  | None => None
                  end
              | None => None
              end
          | None => None
          end
      | [] => None
      end
  end.

End Sequences.

Fixpoint decode (fuel : nat) (s : pystr) : option (JValue * pystr) :=
  match fuel with
  | O => None
  | S fuel' =>
      match s with
      | 110 :: r => Some (JNull, r)
      | 116 :: r => Some (JBool true, r)
      | 102 :: r => Some (JBool false, r)
      | 105 :: sign :: n :: r => Some (JInt (signed sign n), r)
      | 100 :: sign :: n :: r => Some (JFloat (signed sign n), r)
      | 34 :: n :: r =>
          match take (N.to_nat n) r with
          | Some (str, r') => Some (JStr str, r')
          | None => None
          end
      | 91 :: n :: r =>
          match decode_items (decode fuel') (N.to_nat n) r with
          | Some (xs, r') => Some (JArr xs, r')
          | None => None
          end
      | 123 :: n :: r =>
          match decode_members (decode fuel') (N.to_nat n) r with
          | Some (kvs, r') => Some (JObj kvs, r')
          | None => None
          end
      | _ => None
      end
  end.

Definition loads (s : pystr) : exn + JValue :=
  match decode (List.length s) s with
  | Some (v, []) => inr v
  | _ => inl (ExternalError (lit "Expecting value"))
  end.

(** ** The store

    The [memory] table is the list of its Notes, oldest first. *)
Definition Db := list Note.

(** The value [sqlite3] reads back for a stored tags value. *)
Definition stored (v : JValue) : SqlValue :=
  match v with
  | JStr s => SqlText s
  | JInt z => SqlInt z
  | JBool b => SqlInt (if b then 1 else 0)
  | JFloat x => SqlReal x
  | _ => SqlNull
  end.

Definition all_columns (n : Note) : Row :=
  [(lit "text", SqlText (note_text n));
   (lit "tags", stored (note_tags n));
   (lit "timestamp", SqlText (note_timestamp n))].

Definition text_column (n : Note) : Row :=
  [(lit "text", SqlText (note_text n))].

Definition select_notes : pystr :=
  lit "SELECT text, tags, timestamp FROM memory".
Definition select_text : pystr := lit "SELECT text FROM memory".
Definition select_count : pystr := lit "SELECT count(*) FROM memory".
Definition select_like_update : pystr :=
  lit "SELECT text FROM memory WHERE text LIKE '%update%'".

(** LIKE compares ASCII letters without case. *)
Definition like_update (n : Note) : bool :=
  str_in (lit "UPDATE") (upper (fun c => [c]) (note_text n)).

(** The queries the store knows; anything else is a syntax error.  None
    of them changes the store. *)
Definition conn_execute (sql : pystr) (d : Db) : (exn + list Row) * Db :=
  if pystr_eqb sql select_notes then (inr (map all_columns d), d)
  else if pystr_eqb sql select_text then (inr (map text_column d), d)
  else if pystr_eqb sql select_count
  then (inr [[(lit "count(*)", SqlInt (Z.of_nat (List.length d)))]], d)
  else if pystr_eqb sql select_like_update
  then (inr (map text_column (filter like_update d)), d)
  else (inl (ExternalError (lit "syntax error")), d).

(** A [list] or [dict] cannot be bound to a parameter of the INSERT. *)
Definition conn_insert (n : Note) (d : Db) : exn + Db :=
  match note_tags n with
  | JArr _ | JObj _ =>
      inl (ExternalError (lit "Error binding parameter 2: type is not supported"))
  | _ => inr (d ++ [n])
  end.

(** ** The engine

    The classifier's answer is fixed; the chat plays its script, one
    turn per message, whatever the message. *)
Record Engine := {
  classifier : exn + option pystr;
  script : list Response
}.

Definition generate_content (prompt : pystr) (g : Engine)
  : (exn + option pystr) * Engine :=
  (classifier g, g).

Definition send_message (m : Message) (g : Engine) : (exn + Response) * Engine :=
  match script g with
  | [] => (inl (ExternalError (lit "the engine is unreachable")), g)
  | r :: rest => (inr r, {| classifier := classifier g; script := rest |})
  end.

Definition strftime_now (fmt : pystr) : pystr :=
  if pystr_eqb fmt (lit "%Y-%m-%d") then lit "2026-11-04"
  else lit "2026-11-04 09:30:00".

(** Connecting and creating a chat always succeed. *)
Definition collaborators : Collaborators :=
  Build_Collaborators Db Engine unicode_upper encode loads
    (fun _ => None) conn_execute conn_insert
    generate_content (fun _ g => inr g) send_message strftime_now.

Definition world (d : Db) (g : Engine) : World collaborators :=
  Build_World (C := collaborators) d g [].

(** ** Sample data *)

Definition dentist_note : Note := {|
  note_text := lit "Dentist appointment next Tuesday";
  note_tags := JStr (lit "health,appointment");
  note_timestamp := lit "2026-11-03 18:05:00"
|}.

(** An engine that is never reached. *)
Definition silent : Engine := {|
  classifier := inl (ExternalError (lit "503 UNAVAILABLE"));
  script := []
|}.

(** A classifier that answers with the object [members]. *)
Definition classifying (members : list (pystr * JValue)) : Engine := {|
  classifier := inr (Some (encode (JObj members)));
  script := []
|}.

(** A chat that plays [turns_]. *)
Definition scripted (turns_ : list Response) : Engine := {|
  classifier := inl (ExternalError (lit "503 UNAVAILABLE"));
  script := turns_
|}.

Definition text_part (s : pystr) : Part :=
  {| function_call := None; part_text := Some s |}.

Definition call_part (arguments : dict JValue) : Part :=
  {| function_call := Some {| fc_name := Some (lit "execute_sql");
                              args := Some arguments |};
     part_text := None |}.

(** A turn of one candidate with the parts [ps]; [s] is its text. *)
Definition turn (ps : list Part) (s : option pystr) : Response :=
  {| candidates := Some [ {| content := Some {| parts := Some ps |} |} ];
     response_text := s |}.

Definition dentist_answer : pystr :=
  lit "You have a dentist appointment next Tuesday.".

Definition dentist_question : QueryRequest :=
  {| question := lit "What did I say about the dentist?" |}.

(** A turn that talks first and asks for a query in its second part. *)
Definition talk_then_call : Response :=
  turn [text_part (lit "Let me look that up.");
        call_part [(lit "sql_query", JStr select_notes)]]
    (Some (lit "Let me look that up.")).

(** A turn that asks for a query in its first part. *)
Definition call_turn : Response :=
  turn [call_part [(lit "sql_query", JStr select_notes)]] None.

(** A turn that calls the tool without its argument. *)
Definition call_without_query : Response := turn [call_part []] None.

(** A turn of text alone. *)
Definition answer_turn : Response :=
  turn [text_part dentist_answer] (Some dentist_answer).

End Stub.

(** * Configuration and the API surface *)

(** ** Startup (lines 14-23) *)

Record Config := {
  GEMINI_KEY : pystr;
  SERVER_SECRET : pystr
}.

(** How the module's configuration ends: with both values, or with the
    [ValueError] that stops the process. *)
Inductive startup :=
| Started (cfg : Config)
| ValueError (msg : pystr).

(** [getenv] is [os.getenv] once [load_dotenv()] has run.  [not v] holds
    of [None] and of the empty string. *)
Definition load_config (getenv : pystr -> option pystr) : startup :=
  let gemini_key := getenv (lit "GEMINI_API_KEY") in
  let server_secret := getenv (lit "DONTFORGET_SECRET_KEY") in
  match gemini_key with
  | None | Some [] => ValueError (lit "GEMINI_API_KEY missing in .env")
  | Some (c :: key) =>
      match server_secret with
      | None | Some [] => ValueError (lit "DONTFORGET_SECRET_KEY missing in .env")
      | Some (c' :: secret) =>
          Started {| GEMINI_KEY := c :: key; SERVER_SECRET := c' :: secret |}
      end
  end.

(** ** The endpoints (lines 29-35, 73-78, 98-99) *)

Record HealthResponse := { health_status : pystr; system : pystr }.

Definition invalid_api_key : pystr :=
  lit "Invalid API Key. You are not the owner.".

Section Endpoints.

Variable C : Collaborators.
Variable cfg : Config.
Local Open Scope py_scope.

(** [verify_api_key], given the value of the [x-api-key] header. *)
Definition verify_api_key (x_api_key : pystr) : M C pystr :=
  if negb (pystr_eqb x_api_key (SERVER_SECRET cfg))
  then raise (HTTPException 401 invalid_api_key)
  else ret x_api_key.

(** [dependencies=[Depends(...)]]: the dependency runs before the
    endpoint, its value is dropped, its exception ends the request. *)
Definition depends {A} (dependency : M C pystr) (endpoint : M C A) : M C A :=
  dependency ;; endpoint.

Definition health : M C HealthResponse :=
  ret {| health_status := lit "online"; system := lit "DontForget" |}.

Definition get_health (x_api_key : pystr) : M C HealthResponse :=
  depends (verify_api_key x_api_key) health.

Definition post_remember (x_api_key : pystr) (request : ThoughtRequest)
  : M C RememberResponse :=
  depends (verify_api_key x_api_key) (remember C request).

Definition post_remind (fuel : nat) (x_api_key : pystr) (request : QueryRequest)
  : M C RemindResponse :=
  depends (verify_api_key x_api_key) (remind C fuel request).

End Endpoints.

(** * Notions for the runs of the handlers *)

(** A function response sent to the engine. *)
Definition is_function_response (ev : Event) : bool :=
  match ev with
  | EvSend (FunctionResponse _ _) => true
  | _ => false
  end.

Definition function_responses (evs : list Event) : nat :=
  List.length (filter is_function_response evs).

(** What an event of [remind] may be: a statement that reaches
    [conn.execute] has passed the guard, a message after the question is
    a function response under the name "execute_sql", and neither the
    INSERT nor the classifier occurs. *)
Definition remind_event (up : N -> pystr) (ev : Event) : Prop :=
  match ev with
  | EvExecute sql => has_mutation_keyword up sql = false
  | EvSend (FunctionResponse name _) => name = lit "execute_sql"
  | EvInsert _ => False
  | EvGenerate _ => False
  | _ => True
  end.

(** The guard is adequate for the datastore: a statement that passes it
    leaves the store as it is. *)
Definition guard_adequate (C : Collaborators) : Prop :=
  forall q d,
    has_mutation_keyword (unicode_upper C) q = false ->
    snd (conn_execute C q d) = d.

(** ASCII uppercase of one code point. *)
Definition ascii_upper (c : N) : N :=
  if (97 <=? c) && (c <=? 122) then c - 32 else c.

(** ** A test double that never answers

    An engine that asks for the same query on every call. *)
Module Eager.

Definition send_message (m : Message) (g : unit) : (exn + Response) * unit :=
  (inr Stub.call_turn, g).

Definition generate_content (prompt : pystr) (g : unit)
  : (exn + option pystr) * unit :=
  (inl (ExternalError (lit "503 UNAVAILABLE")), g).

Definition collaborators : Collaborators :=
  Build_Collaborators Stub.Db unit Stub.unicode_upper Stub.encode Stub.loads
    (fun _ => None) Stub.conn_execute Stub.conn_insert
    generate_content (fun _ g => inr g) send_message Stub.strftime_now.

Definition world (d : Stub.Db) : World collaborators :=
  Build_World (C := collaborators) d tt [].

End Eager.
(** ** Facts on substrings and [upper] *)

Lemma prefix_of_spec (x s : pystr) :
  prefix_of x s = true <-> exists post, s = x ++ post.
Proof.
  revert s; induction x as [|a x IH]; intros s; simpl.
  - split; [intros _; now exists s | reflexivity].
  - destruct s as [|b s].
    + split; [discriminate | intros [post H]; discriminate].
    + rewrite andb_true_iff, N.eqb_eq, IH. split.
      * intros [-> [post ->]]. now exists post.
      * intros [post H]. injection H as -> ->. split; [reflexivity | now exists post].
Qed.

Lemma str_in_spec (x s : pystr) : str_in x s = true <-> substring x s.
Proof.
  unfold substring. induction s as [|b s IH].
  - simpl. rewrite orb_false_r, prefix_of_spec. split.
    + intros [post H]. now exists [], post.
    + intros [pre [post H]]. destruct pre; simpl in H.
      * now exists post.
      * discriminate.
  - cbn [str_in]. rewrite orb_true_iff, prefix_of_spec, IH. split.
    + intros [[post H] | [pre [post H]]].
      * exists [], post. exact H.
      * exists (b :: pre), post. simpl. now rewrite H.
    + intros [pre [post H]]. destruct pre as [|c pre]; simpl in H.
      * left. now exists post.
      * right. injection H as -> ->. now exists pre, post.
Qed.

Lemma upper_app up (a b : pystr) : upper up (a ++ b) = upper up a ++ upper up b.
Proof. unfold upper. apply flat_map_app. Qed.

Lemma upper_char_letter up (c k : N) :
  65 <= k <= 90 -> same_letter c k -> upper_char up c = [k].
Proof.
  intros Hk [-> | ->]; unfold upper_char.
  - replace ((97 <=? k) && (k <=? 122)) with false
      by (symmetry; apply andb_false_iff; left; apply N.leb_gt; lia).
    replace (k <? 128) with true by (symmetry; apply N.ltb_lt; lia).
    reflexivity.
  - replace ((97 <=? k + 32) && (k + 32 <=? 122)) with true
      by (symmetry; apply andb_true_iff; split; apply N.leb_le; lia).
    f_equal. lia.
Qed.

Lemma upper_caseless up (mid kw : pystr) :
  Forall (fun k => 65 <= k <= 90) kw ->
  Forall2 same_letter mid kw -> upper up mid = kw.
Proof.
  intros Hkw H. induction H as [|c k mid kw Hck _ IH]; [reflexivity|].
  inversion Hkw; subst. unfold upper in *. simpl.
  rewrite (upper_char_letter up c k); auto. simpl. f_equal. auto.
Qed.

Lemma mutation_keywords_uppercase :
  Forall (Forall (fun k => 65 <= k <= 90)) mutation_keywords.
Proof. repeat constructor; cbv; discriminate. Qed.

Lemma has_mutation_keyword_spec up (q : pystr) :
  has_mutation_keyword up q = true <->
  exists kw, In kw mutation_keywords /\ substring kw (upper up q).
Proof.
  unfold has_mutation_keyword. rewrite existsb_exists.
  split; intros [kw [Hin H]]; exists kw; split; auto; now apply str_in_spec.
Qed.

Lemma caseless_keyword_refused up (q kw : pystr) :
  In kw mutation_keywords -> occurs_caseless kw q ->
  has_mutation_keyword up q = true.
Proof.
  intros Hin [pre [mid [post [-> Hmid]]]].
  apply has_mutation_keyword_spec. exists kw; split; [assumption|].
  exists (upper up pre), (upper up post).
  rewrite !upper_app. f_equal. f_equal.
  apply upper_caseless; [|assumption].
  pose proof mutation_keywords_uppercase as HU.
  rewrite Forall_forall in HU. now apply HU.
Qed.

(** * The guard of [execute_sql] *)

Section Guard.

Variable C : Collaborators.

Lemma guard_true_refuses (q : pystr) (w : World C) :
  has_mutation_keyword (unicode_upper C) q = true -> refuses C q w.
Proof.
  intros H. unfold refuses, execute_sql, bind, try_except, emit, ret, logged.
  simpl. rewrite H. reflexivity.
Qed.

(** Past the guard the connection is opened first. *)
Lemma guard_false_connects (q : pystr) (w : World C) :
  has_mutation_keyword (unicode_upper C) q = false ->
  exists s w' evs,
    execute_sql C (JStr q) w = (Ret s, w') /\
    trace w' = trace w ++ EvExecuteSql (JStr q) :: EvConnect :: evs.
Proof.
  intros H.
  unfold execute_sql, connect, execute_fetchall, close, bind, try_except,
    emit, ret, with_db, lift, raise.
  simpl. rewrite H. simpl.
  destruct (sqlite3_connect C (db w)) as [e|]; simpl.
  - eexists _, _, []. split; [reflexivity|].
    simpl. now rewrite <- app_assoc.
  - destruct (conn_execute C q (db w)) as [[e|fetched] d]; simpl.
    + eexists _, _, [EvExecute q]. split; [reflexivity|].
      simpl. now rewrite <- !app_assoc.
    + destruct (map dict_of_row fetched); simpl;
        (eexists _, _, [EvExecute q; EvClose]; split; [reflexivity|];
         simpl; now rewrite <- !app_assoc).
Qed.

Lemma refuses_iff_guard (q : pystr) (w : World C) :
  refuses C q w <-> has_mutation_keyword (unicode_upper C) q = true.
Proof.
  split; [|apply guard_true_refuses].
  intros R. destruct (has_mutation_keyword (unicode_upper C) q) eqn:G; [reflexivity|].
  destruct (guard_false_connects q w G) as [s [w' [evs [E T]]]].
  unfold refuses in R. rewrite E in R. injection R as _ ->.
  unfold logged in T. simpl in T.
  apply app_inv_head in T. discriminate.
Qed.

(** Past the guard, once connected, the query text reaches
    [conn.execute] as it is. *)
Lemma guard_false_forwards (q : pystr) (w : World C) :
  has_mutation_keyword (unicode_upper C) q = false ->
  sqlite3_connect C (db w) = None ->
  exists s w' evs,
    execute_sql C (JStr q) w = (Ret s, w') /\
    trace w' = trace w ++ EvExecuteSql (JStr q) :: EvConnect :: EvExecute q :: evs /\
    db w' = snd (conn_execute C q (db w)).
Proof.
  intros H Hc.
  unfold execute_sql, connect, execute_fetchall, close, bind, try_except,
    emit, ret, with_db, lift, raise.
  simpl. rewrite H. simpl. rewrite Hc. simpl.
  destruct (conn_execute C q (db w)) as [[e|fetched] d]; simpl.
  - eexists _, _, []. split; [reflexivity|]. simpl. now rewrite <- !app_assoc.
  - destruct (map dict_of_row fetched); simpl;
      (eexists _, _, [EvClose]; split; [reflexivity|];
       simpl; now rewrite <- !app_assoc).
Qed.

End Guard.

(** * Dictionaries and rows *)

Lemma pystr_eqb_eq (a b : pystr) : pystr_eqb a b = true <-> a = b.
Proof.
  unfold pystr_eqb. destruct (list_eq_dec N.eq_dec a b); split; congruence.
Qed.

Lemma pystr_eqb_refl (a : pystr) : pystr_eqb a a = true.
Proof. now apply pystr_eqb_eq. Qed.

Lemma pystr_eqb_neq (a b : pystr) : pystr_eqb a b = false <-> a <> b.
Proof.
  unfold pystr_eqb. destruct (list_eq_dec N.eq_dec a b); split; congruence.
Qed.

Lemma seen_spec (k : pystr) (seen : list pystr) :
  existsb (pystr_eqb k) seen = true <-> In k seen.
Proof.
  rewrite existsb_exists. split.
  - intros [x [Hin H]]. apply pystr_eqb_eq in H. now subst.
  - intros H. exists k. split; [assumption | apply pystr_eqb_refl].
Qed.

Lemma distinct_after_ext (keys s1 s2 : list pystr) :
  (forall k, In k s1 <-> In k s2) ->
  distinct_after s1 keys = distinct_after s2 keys.
Proof.
  revert s1 s2. induction keys as [|k keys IH]; intros s1 s2 H; [reflexivity|].
  simpl.
  assert (E : existsb (pystr_eqb k) s1 = existsb (pystr_eqb k) s2).
  { apply eq_true_iff_eq. rewrite !seen_spec. apply H. }
  rewrite E. destruct (existsb (pystr_eqb k) s2).
  - now apply IH.
  - f_equal. apply IH. intros k'. simpl. now rewrite H.
Qed.

Lemma distinct_after_sound (keys seen : list pystr) :
  NoDup (distinct_after seen keys) /\
  forall k, In k (distinct_after seen keys) -> ~ In k seen /\ In k keys.
Proof.
  revert seen. induction keys as [|k keys IH]; intros seen; simpl.
  - split; [constructor | intros k []].
  - destruct (existsb (pystr_eqb k) seen) eqn:E.
    + destruct (IH seen) as [ND Hin]. split; [assumption|].
      intros k' Hk'. destruct (Hin k' Hk'). auto.
    + destruct (IH (k :: seen)) as [ND Hin]. split.
      * constructor; [|assumption]. intros Hk. apply Hin in Hk.
        destruct Hk as [Hk _]. apply Hk. now left.
      * intros k' [<- | Hk'].
        -- split; [|now left]. rewrite <- seen_spec. congruence.
        -- destruct (Hin k' Hk') as [Hs Hk]. split; [|now right].
           intros Hs'. apply Hs. now right.
Qed.

Lemma distinct_NoDup (keys : list pystr) : NoDup (distinct keys).
Proof. apply distinct_after_sound. Qed.

Lemma distinct_after_fresh (keys seen : list pystr) :
  NoDup keys -> (forall k, In k keys -> ~ In k seen) ->
  distinct_after seen keys = keys.
Proof.
  revert seen. induction keys as [|k keys IH]; intros seen ND Hf; [reflexivity|].
  simpl. inversion ND as [|? ? Hk ND']; subst.
  destruct (existsb (pystr_eqb k) seen) eqn:E.
  - apply seen_spec in E. exfalso. apply (Hf k); [now left | assumption].
  - f_equal. apply IH; [assumption|].
    intros k' Hk' [<- | Hs]; [contradiction|].
    apply (Hf k'); [now right | assumption].
Qed.

Lemma equal_ignore_case_refl (k : pystr) : equal_ignore_case k k = true.
Proof. unfold equal_ignore_case. now rewrite pystr_eqb_refl. Qed.

Section DictOfRow.

Variable row : Row.

Lemma dict_set_known (acc : list pystr) (k : pystr) :
  In k acc -> dict_set (map (item_at row) acc) k (value_at row k) = map (item_at row) acc.
Proof.
  induction acc as [|a acc IH]; intros Hin; [destruct Hin|].
  simpl. destruct (pystr_eqb a k) eqn:E.
  - apply pystr_eqb_eq in E. subst. reflexivity.
  - destruct Hin as [-> | Hin]; [now rewrite pystr_eqb_refl in E|].
    f_equal. now apply IH.
Qed.

Lemma dict_set_new (acc : list pystr) (k : pystr) :
  ~ In k acc ->
  dict_set (map (item_at row) acc) k (value_at row k) = map (item_at row) (acc ++ [k]).
Proof.
  induction acc as [|a acc IH]; intros Hin; [reflexivity|].
  simpl. destruct (pystr_eqb a k) eqn:E.
  - apply pystr_eqb_eq in E. subst. exfalso. apply Hin. now left.
  - f_equal. apply IH. intros H. apply Hin. now right.
Qed.

Lemma row_getitem_key (k : pystr) :
  In k (row_keys row) -> row_getitem row k = Some (value_at row k).
Proof.
  unfold value_at. intros Hin.
  assert (H : row_getitem row k <> None).
  { clear - Hin. induction row as [|[name v] r IH]; [destruct Hin|].
    simpl in *. destruct (equal_ignore_case k name) eqn:E; [discriminate|].
    destruct Hin as [-> | Hin]; [now rewrite equal_ignore_case_refl in E|].
    now apply IH. }
  destruct (row_getitem row k); congruence.
Qed.

Lemma fold_dict_set (keys acc : list pystr) :
  (forall k, In k keys -> In k (row_keys row)) ->
  fold_left
    (fun d k => match row_getitem row k with
                | Some v => dict_set d k v
                | None => d
                end)
    keys (map (item_at row) acc)
  = map (item_at row) (acc ++ distinct_after acc keys).
Proof.
  revert acc. induction keys as [|k keys IH]; intros acc Hk; simpl.
  - now rewrite app_nil_r.
  - rewrite (row_getitem_key k) by (apply Hk; now left).
    destruct (existsb (pystr_eqb k) acc) eqn:E.
    + rewrite dict_set_known by now apply seen_spec.
      apply IH. intros k' Hk'. apply Hk. now right.
    + rewrite dict_set_new by (rewrite <- seen_spec; congruence).
      rewrite IH by (intros k' Hk'; apply Hk; now right).
      rewrite <- app_assoc. simpl. do 3 f_equal.
      apply distinct_after_ext. intros k'. rewrite in_app_iff. simpl. tauto.
Qed.

(** [dict(row)] has the names of the row as keys, each once, in the
    order of their first occurrence, and [row[k]] under [k]. *)
Lemma dict_of_row_items :
  dict_of_row row = map (item_at row) (distinct (row_keys row)).
Proof.
  unfold dict_of_row, distinct.
  apply (fold_dict_set (row_keys row) []). auto.
Qed.

Lemma dict_of_row_keys : map fst (dict_of_row row) = distinct (row_keys row).
Proof.
  rewrite dict_of_row_items, map_map. simpl. apply map_id.
Qed.

Lemma dict_of_row_value (k : pystr) (v : SqlValue) :
  In (k, v) (dict_of_row row) -> row_getitem row k = Some v.
Proof.
  rewrite dict_of_row_items, in_map_iff. intros [k' [E Hin]].
  injection E as -> <-. apply row_getitem_key.
  now apply (distinct_after_sound (row_keys row) []).
Qed.

End DictOfRow.

Lemma unambiguous_earlier (a b : list pystr) (k : pystr) :
  unambiguous (a ++ k :: b) = true ->
  forall k', In k' a -> equal_ignore_case k k' = false.
Proof.
  induction a as [|x a IH]; intros H k' Hin; [destruct Hin|].
  simpl in H. apply andb_true_iff in H. destruct H as [Hx Ha].
  destruct Hin as [-> | Hin]; [|now apply IH].
  apply negb_true_iff in Hx.
  destruct (equal_ignore_case k k') eqn:E; [|reflexivity].
  rewrite <- Hx. symmetry. apply existsb_exists. exists k.
  split; [apply in_elt | assumption].
Qed.

Lemma unambiguous_NoDup (names : list pystr) :
  unambiguous names = true -> NoDup names.
Proof.
  induction names as [|k names IH]; intros H; [constructor|].
  simpl in H. apply andb_true_iff in H. destruct H as [Hk Hn].
  constructor; [|now apply IH].
  intros Hin. apply negb_true_iff in Hk.
  assert (E : existsb (fun k' => equal_ignore_case k' k) names = true).
  { apply existsb_exists. exists k.
    split; [assumption | apply equal_ignore_case_refl]. }
  congruence.
Qed.

Lemma row_getitem_first (pre post : Row) (k : pystr) (v : SqlValue) :
  (forall k', In k' (row_keys pre) -> equal_ignore_case k k' = false) ->
  row_getitem (pre ++ (k, v) :: post) k = Some v.
Proof.
  induction pre as [|[name x] pre IH]; intros H; simpl.
  - now rewrite equal_ignore_case_refl.
  - rewrite (H name) by now left. apply IH. intros k' Hk'. apply H. now right.
Qed.

Lemma items_of_unambiguous (post pre : Row) :
  unambiguous (row_keys (pre ++ post)) = true ->
  map (item_at (pre ++ post)) (row_keys post) = post.
Proof.
  revert pre. induction post as [|[k v] post IH]; intros pre H; [reflexivity|].
  simpl. f_equal.
  - unfold item_at, value_at. rewrite row_getitem_first; [reflexivity|].
    unfold row_keys in H. rewrite map_app in H. simpl in H.
    now apply (unambiguous_earlier _ _ _ H).
  - replace (pre ++ (k, v) :: post) with ((pre ++ [(k, v)]) ++ post) in *
      by (rewrite <- app_assoc; reflexivity).
    now apply IH.
Qed.

(** When no two columns share a name up to case, [dict(row)] is the row:
    its columns in order, each with its value. *)
Lemma dict_of_row_unambiguous (row : Row) :
  unambiguous (row_keys row) = true -> dict_of_row row = row.
Proof.
  intros H. rewrite dict_of_row_items.
  unfold distinct. rewrite distinct_after_fresh.
  - now apply (items_of_unambiguous row []).
  - now apply unambiguous_NoDup.
  - intros k _ [].
Qed.

(** * The stand-in codec keeps the laws of the [json] module *)

Lemma stub_take_app (s rest : pystr) :
  Stub.take (List.length s) (s ++ rest) = Some (s, rest).
Proof.
  unfold Stub.take.
  replace (List.length (s ++ rest) <? List.length s)%nat with false.
  - rewrite firstn_app, skipn_app, Nat.sub_diag, firstn_all, skipn_all.
    simpl. now rewrite app_nil_r.
  - symmetry. apply Nat.ltb_ge. rewrite length_app. lia.
Qed.

Lemma stub_signed (z : Z) : Stub.signed (Stub.sign_of z) (Z.abs_N z) = z.
Proof.
  unfold Stub.signed, Stub.sign_of. rewrite N2Z.inj_abs_N.
  destruct (Z.ltb_spec z 0); simpl; lia.
Qed.

Lemma stub_encode_nonempty (v : JValue) : (1 <= List.length (Stub.encode v))%nat.
Proof. destruct v as [|[]| | | | |]; simpl; lia. Qed.

Section StubSequences.

Variable fuel : nat.
Hypothesis one_value : forall v rest,
  (List.length (Stub.encode v) <= fuel)%nat ->
  Stub.decode fuel (Stub.encode v ++ rest) = Some (v, rest).

Lemma stub_decode_items (items : list JValue) (rest : pystr) :
  (List.length (flat_map Stub.encode items) <= fuel)%nat ->
  Stub.decode_items (Stub.decode fuel) (List.length items)
    (flat_map Stub.encode items ++ rest) = Some (items, rest).
Proof.
  induction items as [|x items IH]; intros H; [reflexivity|].
  simpl in *. rewrite length_app in H.
  rewrite <- app_assoc, one_value by lia.
  rewrite IH by lia. reflexivity.
Qed.

Lemma stub_decode_members (members : list (pystr * JValue)) (rest : pystr) :
  (List.length
     (flat_map (fun kv => let '(k, x) := kv in
                          N.of_nat (List.length k) :: k ++ Stub.encode x)
        members) <= fuel)%nat ->
  Stub.decode_members (Stub.decode fuel) (List.length members)
    (flat_map (fun kv => let '(k, x) := kv in
                         N.of_nat (List.length k) :: k ++ Stub.encode x)
       members ++ rest) = Some (members, rest).
Proof.
  induction members as [|[k x] members IH]; intros H; [reflexivity|].
  simpl in *. rewrite !length_app in H.
  rewrite Nat2N.id, <- !app_assoc, stub_take_app.
  rewrite one_value by lia. rewrite IH by lia. reflexivity.
Qed.

End StubSequences.

Lemma stub_decode_encode (fuel : nat) :
  forall v rest,
    (List.length (Stub.encode v) <= fuel)%nat ->
    Stub.decode fuel (Stub.encode v ++ rest) = Some (v, rest).
Proof.
  induction fuel as [|fuel IH]; intros v rest H.
  - pose proof (stub_encode_nonempty v). lia.
  - destruct v as [|[]|z|x|s|items|members]; simpl in *.
    + reflexivity.
    + reflexivity.
    + reflexivity.
    + now rewrite stub_signed.
    + now rewrite stub_signed.
    + now rewrite Nat2N.id, stub_take_app.
    + rewrite Nat2N.id, (stub_decode_items fuel IH) by lia. reflexivity.
    + rewrite Nat2N.id, (stub_decode_members fuel IH) by lia. reflexivity.
Qed.

Lemma stub_loads_encode (v : JValue) : Stub.loads (Stub.encode v) = inr v.
Proof.
  unfold Stub.loads.
  rewrite <- (app_nil_r (Stub.encode v)) at 2.
  now rewrite stub_decode_encode.
Qed.

Lemma stub_json_laws : JsonLaws Stub.collaborators.
Proof.
  split.
  - intros v _. apply stub_loads_encode.
  - intros items. simpl. eexists. reflexivity.
Qed.

(** * The paths through [execute_sql] *)

Section ExecuteSqlPaths.

Variable C : Collaborators.

Ltac run :=
  unfold execute_sql, connect, execute_fetchall, close, bind, try_except,
    emit, ret, with_db, lift, raise, logged; simpl.

Lemma execute_sql_not_str (v : JValue) (w : World C) :
  (forall q, v <> JStr q) ->
  execute_sql C v w
  = (Ret (sql_error (AttributeError (lit "'" ++ type_name v
                                     ++ lit "' object has no attribute 'upper'"))),
     logged w [EvExecuteSql v]).
Proof.
  intros H. destruct v; try reflexivity. now destruct (H s).
Qed.

Lemma execute_sql_connect_fails (q : pystr) (w : World C) (e : exn) :
  has_mutation_keyword (unicode_upper C) q = false ->
  sqlite3_connect C (db w) = Some e ->
  execute_sql C (JStr q) w
  = (Ret (sql_error e), logged w [EvExecuteSql (JStr q); EvConnect]).
Proof.
  intros G Hc. run. rewrite G. simpl. rewrite Hc. simpl.
  now rewrite <- app_assoc.
Qed.

Lemma execute_sql_query_fails (q : pystr) (w : World C) (e : exn) (d : Db C) :
  has_mutation_keyword (unicode_upper C) q = false ->
  sqlite3_connect C (db w) = None ->
  conn_execute C q (db w) = (inl e, d) ->
  execute_sql C (JStr q) w
  = (Ret (sql_error e),
     Build_World d (engine w)
       (trace w ++ [EvExecuteSql (JStr q); EvConnect; EvExecute q])).
Proof.
  intros G Hc Hq. run. rewrite G. simpl. rewrite Hc. simpl. rewrite Hq. simpl.
  now rewrite <- !app_assoc.
Qed.

Lemma execute_sql_rows (q : pystr) (w : World C) (fetched : list Row) (d : Db C) :
  has_mutation_keyword (unicode_upper C) q = false ->
  sqlite3_connect C (db w) = None ->
  conn_execute C q (db w) = (inr fetched, d) ->
  execute_sql C (JStr q) w
  = (Ret (match fetched with
          | [] => no_results
          | _ :: _ => json_dumps_default_str C (map dict_of_row fetched)
          end),
     Build_World d (engine w)
       (trace w ++ [EvExecuteSql (JStr q); EvConnect; EvExecute q; EvClose])).
Proof.
  intros G Hc Hq. run. rewrite G. simpl. rewrite Hc. simpl. rewrite Hq. simpl.
  destruct fetched; simpl; now rewrite <- !app_assoc.
Qed.

(** Whatever it is given, [execute_sql] returns a string; it leaves the
    engine alone, and after the event of its own call only events of
    the datastore are added. *)
Lemma execute_sql_returns (v : JValue) (w : World C) :
  exists s w' evs,
    execute_sql C v w = (Ret s, w') /\
    engine w' = engine w /\
    trace w' = trace w ++ EvExecuteSql v :: evs /\
    Forall (fun ev => is_datastore_event ev = true) evs /\
    (s = read_only_error \/ s = no_results \/ (exists e, s = sql_error e) \/
     exists rows, rows <> [] /\ s = json_dumps_default_str C rows).
Proof.
  destruct v as [| | | |q| |];
    try (eexists _, _, []; rewrite execute_sql_not_str by discriminate;
         repeat split; [constructor | right; right; left; eexists; reflexivity]).
  destruct (has_mutation_keyword (unicode_upper C) q) eqn:G.
  - eexists _, _, []. rewrite (guard_true_refuses C q w G).
    repeat split; [constructor | now left].
  - destruct (sqlite3_connect C (db w)) as [e|] eqn:Hc.
    + eexists _, _, [EvConnect]. rewrite (execute_sql_connect_fails q w e G Hc).
      repeat split; [repeat constructor | right; right; left; now exists e].
    + destruct (conn_execute C q (db w)) as [[e|fetched] d] eqn:Hq.
      * eexists _, _, [EvConnect; EvExecute q].
        rewrite (execute_sql_query_fails q w e d G Hc Hq).
        repeat split; [repeat constructor | right; right; left; now exists e].
      * eexists _, _, [EvConnect; EvExecute q; EvClose].
        rewrite (execute_sql_rows q w fetched d G Hc Hq).
        repeat split; [repeat constructor|].
        destruct fetched as [|row fetched]; [right; now left|].
        right; right; right. eexists. split; [|reflexivity]. discriminate.
Qed.

End ExecuteSqlPaths.

(** * What [json.dumps] is given *)

Section Serialized.

Variable C : Collaborators.

Lemma hex_digit_ascii (n : N) : n < 16 -> hex_digit n < 128.
Proof.
  intros H. unfold hex_digit. destruct (N.ltb_spec n 10); lia.
Qed.

Lemma ascii_is_scalar (c : N) : c < 128 -> scalar_value c = true.
Proof.
  intros H. unfold scalar_value.
  apply orb_true_iff. left. apply N.ltb_lt. lia.
Qed.

Lemma byte_repr_ascii (quote c : N) :
  quote < 128 -> Forall (fun x => x < 128) (byte_repr quote c).
Proof.
  intros Hq. unfold byte_repr.
  destruct ((c =? quote) || (c =? 92)) eqn:E1.
  - apply orb_true_iff in E1. rewrite !N.eqb_eq in E1.
    repeat constructor; lia.
  - destruct (c =? 9); [repeat constructor; lia|].
    destruct (c =? 10); [repeat constructor; lia|].
    destruct (c =? 13); [repeat constructor; lia|].
    destruct ((c <? 32) || (127 <=? c)) eqn:E2.
    + repeat constructor; try lia;
        apply hex_digit_ascii; apply N.mod_lt; discriminate.
    + apply orb_false_iff in E2. destruct E2 as [_ E2].
      apply N.leb_gt in E2. repeat constructor. lia.
Qed.

Lemma bytes_quote_ascii (b : list N) : bytes_quote b < 128.
Proof. unfold bytes_quote. destruct (_ && _); lia. Qed.

(** [str(b)] is ASCII, hence text. *)
Lemma str_bytes_is_text (b : list N) : is_text (str_bytes b) = true.
Proof.
  unfold is_text. apply forallb_forall. intros c Hin.
  apply ascii_is_scalar. unfold str_bytes in Hin.
  pose proof (bytes_quote_ascii b) as Hq.
  destruct Hin as [<- | [<- | Hin]]; [lia | exact Hq |].
  apply in_app_iff in Hin. destruct Hin as [Hin | [<- | []]]; [|exact Hq].
  apply in_flat_map in Hin. destruct Hin as [x [_ Hin]].
  pose proof (byte_repr_ascii (bytes_quote b) x Hq) as HF.
  rewrite Forall_forall in HF. now apply HF.
Qed.

Lemma json_object_keys (d : dict SqlValue) :
  forall members, json_object d = JObj members -> map fst members = map fst d.
Proof.
  intros members E. injection E as <-. rewrite map_map. reflexivity.
Qed.

Lemma jsonable_wf (v : SqlValue) : sql_wf v = true -> json_wf (jsonable v).
Proof.
  destruct v; cbn [jsonable json_wf sql_wf]; intros H; try exact I.
  - now apply negb_true_iff.
  - exact H.
  - apply str_bytes_is_text.
Qed.

Lemma row_getitem_In (row : Row) (k : pystr) (v : SqlValue) :
  row_getitem row k = Some v -> exists name, In (name, v) row.
Proof.
  induction row as [|[name x] row IH]; simpl; [discriminate|].
  destruct (equal_ignore_case k name).
  - intros E. injection E as ->. exists name. now left.
  - intros E. destruct (IH E) as [name' H]. exists name'. now right.
Qed.

Lemma json_object_wf (row : Row) :
  row_wf row = true -> json_wf (json_object (dict_of_row row)).
Proof.
  intros W. unfold row_wf in W. rewrite forallb_forall in W.
  unfold json_object. simpl. split.
  - rewrite map_map. simpl. rewrite dict_of_row_keys. apply distinct_NoDup.
  - assert (H : forall k v, In (k, v) (dict_of_row row) ->
                  is_text k = true /\ sql_wf v = true).
    { intros k v Hin. split.
      - rewrite dict_of_row_items in Hin. apply in_map_iff in Hin.
        destruct Hin as [k' [E Hk]]. injection E as -> _.
        apply (distinct_after_sound (row_keys row) []) in Hk.
        destruct Hk as [_ Hk]. apply in_map_iff in Hk.
        destruct Hk as [[name x] [<- Hx]].
        apply W in Hx. now apply andb_true_iff in Hx.
      - apply dict_of_row_value, row_getitem_In in Hin.
        destruct Hin as [name Hx].
        apply W in Hx. now apply andb_true_iff in Hx. }
    induction (dict_of_row row) as [|[k v] d IH]; simpl; [exact I|].
    split.
    + destruct (H k v (or_introl eq_refl)) as [Hk Hv].
      split; [exact Hk | now apply jsonable_wf].
    + apply IH. intros k' v' Hin. apply H. now right.
Qed.

Lemma json_rows_wf (fetched : list Row) :
  forallb row_wf fetched = true ->
  json_wf (JArr (map (fun row => json_object (dict_of_row row)) fetched)).
Proof.
  intros W. simpl. induction fetched as [|row fetched IH]; simpl; [exact I|].
  simpl in W. apply andb_true_iff in W. destruct W as [Wr Wf].
  split; [now apply json_object_wf | now apply IH].
Qed.

Lemma no_results_is_no_list (L : JsonLaws C) (rows : list (dict SqlValue)) :
  json_dumps_default_str C rows <> no_results.
Proof.
  unfold json_dumps_default_str.
  destruct (encode_array C L (map json_object rows)) as [t ->].
  discriminate.
Qed.

Lemma read_only_error_is_no_list (L : JsonLaws C) (rows : list (dict SqlValue)) :
  json_dumps_default_str C rows <> read_only_error.
Proof.
  unfold json_dumps_default_str.
  destruct (encode_array C L (map json_object rows)) as [t ->].
  discriminate.
Qed.

End Serialized.

(** * Counting events *)

Lemma execute_sql_calls_app (a b : list Event) :
  execute_sql_calls (a ++ b) = (execute_sql_calls a + execute_sql_calls b)%nat.
Proof. unfold execute_sql_calls. now rewrite filter_app, length_app. Qed.

Lemma turns_app (a b : list Event) : turns (a ++ b) = turns a ++ turns b.
Proof. unfold turns. apply flat_map_app. Qed.

Lemma datastore_events_app (a b : list Event) :
  datastore_events (a ++ b) = datastore_events a ++ datastore_events b.
Proof. apply filter_app. Qed.

Lemma datastore_only_no_calls (evs : list Event) :
  Forall (fun ev => is_datastore_event ev = true) evs ->
  execute_sql_calls evs = 0%nat /\ turns evs = [].
Proof.
  induction 1 as [|ev evs Hev _ [IHc IHt]]; [now split|].
  unfold execute_sql_calls, turns in *. simpl.
  destruct ev; try discriminate; simpl; now split.
Qed.

(** * The steps of [remind] *)

Section RemindSteps.

Variable C : Collaborators.

Lemma chat_send_message_turn (m : Message) (w : World C)
    (response : Response) (g : Engine C) :
  send_message C m (engine w) = (inr response, g) ->
  chat_send_message C m w
  = (Ret response, Build_World (db w) g (trace w ++ [EvSend m; EvTurn response])).
Proof.
  intros H. unfold chat_send_message, bind, emit, with_engine, lift, ret.
  simpl. rewrite H. simpl. now rewrite <- app_assoc.
Qed.

Lemma chat_send_message_raises (m : Message) (w : World C)
    (e : exn) (g : Engine C) :
  send_message C m (engine w) = (inl e, g) ->
  chat_send_message C m w
  = (Raise e, Build_World (db w) g (trace w ++ [EvSend m])).
Proof.
  intros H. unfold chat_send_message, bind, emit, with_engine, lift, raise.
  simpl. now rewrite H.
Qed.

Lemma client_chats_create_ok (instruct : pystr) (w : World C) (g : Engine C) :
  chats_create C instruct (engine w) = inr g ->
  client_chats_create C instruct w
  = (Ret tt, Build_World (db w) g (trace w ++ [EvChatCreate instruct])).
Proof.
  intros H. unfold client_chats_create, bind, emit, with_engine, lift, ret.
  simpl. now rewrite H.
Qed.

(** A turn whose first part carries no function call ends the loop. *)
Lemma react_loop_final (fuel : nat) (response : Response) (w : World C) :
  final_turn response ->
  react_loop C (S fuel) response w = (Ret response, w).
Proof.
  intros [part [Hp Hf]]. cbn [react_loop].
  unfold bind, lift. rewrite Hp. cbv beta iota delta [ret]. now rewrite Hf.
Qed.

(** A turn whose first part carries a function call with the query runs
    the body of the loop once on that query. *)
Lemma react_loop_tool (fuel : nat) (response : Response) (query : JValue)
    (w : World C) :
  tool_turn query response ->
  react_loop C (S fuel) response w
  = bind (emit (EvPrintQuery query)) (fun _ =>
      bind (execute_sql C query) (fun result =>
        bind (chat_send_message C (FunctionResponse (lit "execute_sql") result))
          (fun next => react_loop C fuel next))) w.
Proof.
  intros [part [call [Hp [Hf Ha]]]]. cbn [react_loop].
  unfold bind, lift. rewrite Hp. cbv beta iota delta [ret]. rewrite Hf.
  cbv beta iota. rewrite Ha. cbv beta iota delta [ret]. reflexivity.
Qed.

(** A function call without the argument stops the loop with the
    exception of the lookup. *)
Lemma react_loop_bad_arguments (fuel : nat) (response : Response)
    (part : Part) (call : FunctionCall) (e : exn) (w : World C) :
  first_part response = inr part ->
  function_call part = Some call ->
  args_getitem call (lit "sql_query") = inl e ->
  react_loop C (S fuel) response w = (Raise e, w).
Proof.
  intros Hp Hf Ha. cbn [react_loop].
  unfold bind, lift. rewrite Hp. cbv beta iota delta [ret]. rewrite Hf.
  cbv beta iota. rewrite Ha. reflexivity.
Qed.

(** With [n] tool turns left and fuel for them, the loop returns the
    turn after them, having called [execute_sql] [n] times and received
    [n] more turns. *)
Lemma react_loop_runs (n : nat) :
  forall fuel response (w : World C),
    (n < fuel)%nat ->
    tool_turns_left C n response (engine w) ->
    exists final w' evs,
      react_loop C fuel response w = (Ret final, w') /\
      trace w' = trace w ++ evs /\
      execute_sql_calls evs = n /\
      List.length (turns evs) = n /\
      nth_error (response :: turns evs) n = Some final.
Proof.
  induction n as [|n IH]; intros fuel response w Hfuel Hleft.
  - destruct fuel as [|fuel]; [lia|]. simpl in Hleft.
    exists response, w, []. rewrite (react_loop_final fuel response w Hleft).
    repeat split. now rewrite app_nil_r.
  - destruct fuel as [|fuel]; [lia|].
    destruct Hleft as [[query Htool] Hnext].
    rewrite (react_loop_tool fuel response query w Htool).
    unfold bind at 1, emit at 1.
    destruct (execute_sql_returns C query
                (Build_World (db w) (engine w) (trace w ++ [EvPrintQuery query])))
      as [s [w1 [evs1 [E1 [G1 [T1 [D1 _]]]]]]].
    unfold bind at 1. rewrite E1.
    destruct (Hnext (FunctionResponse (lit "execute_sql") s))
      as [next [g [Hsend Hleft']]].
    simpl in G1. rewrite <- G1 in Hsend.
    unfold bind at 1. rewrite (chat_send_message_turn _ w1 next g Hsend).
    destruct (IH fuel next
                (Build_World (db w1) g
                   (trace w1 ++ [EvSend (FunctionResponse (lit "execute_sql") s);
                                 EvTurn next])))
      as [final [w' [evs [E [T [Hc [Hl Hn]]]]]]]; [lia | exact Hleft' |].
    exists final, w',
      (EvPrintQuery query :: EvExecuteSql query :: evs1
       ++ [EvSend (FunctionResponse (lit "execute_sql") s); EvTurn next] ++ evs).
    destruct (datastore_only_no_calls evs1 D1) as [Hc1 Ht1].
    split; [exact E|]. split; [|split; [|split]].
    + rewrite T. simpl. rewrite T1. simpl.
      repeat (rewrite <- app_assoc; simpl). reflexivity.
    + change (EvPrintQuery query :: EvExecuteSql query :: evs1 ++ _)
        with ([EvPrintQuery query; EvExecuteSql query] ++ evs1
              ++ [EvSend (FunctionResponse (lit "execute_sql") s); EvTurn next]
              ++ evs).
      rewrite !execute_sql_calls_app, Hc1, Hc. reflexivity.
    + change (EvPrintQuery query :: EvExecuteSql query :: evs1 ++ _)
        with ([EvPrintQuery query; EvExecuteSql query] ++ evs1
              ++ [EvSend (FunctionResponse (lit "execute_sql") s); EvTurn next]
              ++ evs).
      rewrite !turns_app, Ht1. simpl. now rewrite Hl.
    + change (EvPrintQuery query :: EvExecuteSql query :: evs1 ++ _)
        with ([EvPrintQuery query; EvExecuteSql query] ++ evs1
              ++ [EvSend (FunctionResponse (lit "execute_sql") s); EvTurn next]
              ++ evs).
      rewrite !turns_app, Ht1. simpl. exact Hn.
Qed.

End RemindSteps.

(** The handler of [remind] turns any exception of the body into the same
    error. *)
Lemma handler_flattens_failure
    (C : Collaborators) (fuel : nat) (request : QueryRequest)
    (w w1 : World C) (e : exn) :
  remind_body C fuel request w = (Raise e, w1) ->
  remind C fuel request w
  = (Raise (HTTPException 500 retrieval_failed), logged w1 [EvPrintExn e]).
Proof.
  intros H. unfold remind, try_except. rewrite H. reflexivity.
Qed.

(** Once the chat is created and the question answered by [response],
    what is left of the body of [remind] is the loop on [response]. *)
Lemma remind_body_start
    (C : Collaborators) (fuel : nat) (request : QueryRequest) (w : World C)
    (g1 g2 : Engine C) (response : Response) :
  chats_create C (sys_instruct (strftime_now C (lit "%Y-%m-%d"))) (engine w) = inr g1 ->
  send_message C (UserText (question request)) g1 = (inr response, g2) ->
  remind_body C fuel request w
  = bind (react_loop C fuel response)
      (fun r => ret {| answer := response_text r |})
      (Build_World (db w) g2
         (trace w ++ [EvChatCreate (sys_instruct (strftime_now C (lit "%Y-%m-%d")));
                      EvSend (UserText (question request));
                      EvTurn response])).
Proof.
  intros Hcreate Hsend. unfold remind_body. unfold bind at 1.
  rewrite (client_chats_create_ok C _ w g1 Hcreate).
  unfold bind at 1.
  rewrite (chat_send_message_turn C (UserText (question request))
             (Build_World (db w) g1 _) response g2 Hsend).
  cbn [db engine trace].
  now repeat (rewrite <- app_assoc; simpl).
Qed.

(** * Facts on the sample turns *)

Lemma talk_then_call_invokes : contains_tool_invocation Stub.talk_then_call.
Proof.
  unfold contains_tool_invocation. do 6 eexists.
  split; [reflexivity|]. split; [left; reflexivity|].
  split; [reflexivity|]. split; [reflexivity|].
  split; [right; left; reflexivity|]. reflexivity.
Qed.

(** * The properties of the specification *)

(** ** The guarded query executor *)

(** C1.  A query in which one of DELETE, DROP, UPDATE, INSERT occurs, in
    any mix of upper and lower case and anywhere in the text, is refused:
    [execute_sql] returns the fixed read-only error, the store is what it
    was, and no event of the datastore (no connection, no statement) has
    been added to the trace. *)
Theorem mutation_keyword_refused
    (C : Collaborators) (q kw : pystr) (w : World C) :
  In kw mutation_keywords ->
  occurs_caseless kw q ->
  exists w',
    execute_sql C (JStr q) w = (Ret read_only_error, w') /\
    db w' = db w /\
    trace w' = trace w ++ [EvExecuteSql (JStr q)] /\
    datastore_events (trace w') = datastore_events (trace w).
Proof.
  intros Hin Hocc.
  pose proof (caseless_keyword_refused (unicode_upper C) q kw Hin Hocc) as G.
  exists (logged w [EvExecuteSql (JStr q)]).
  rewrite (guard_true_refuses C q w G). repeat split.
  unfold datastore_events, logged. simpl.
  rewrite filter_app. simpl. apply app_nil_r.
Qed.

(** C3.  [execute_sql] is total and raises nothing: for every input (a
    string or not) it returns a string, which is the read-only error, the
    "no results" sentinel, an "SQL Error" text made from an exception, or
    the serialization of a non-empty list of rows. *)
Theorem execute_sql_total (C : Collaborators) (sql_query : JValue) (w : World C) :
  exists s w',
    execute_sql C sql_query w = (Ret s, w') /\
    (s = read_only_error \/ s = no_results \/ (exists e, s = sql_error e) \/
     exists rows, rows <> [] /\ s = json_dumps_default_str C rows).
Proof.
  destruct (execute_sql_returns C sql_query w) as [s [w' [evs [E [_ [_ [_ H]]]]]]].
  now exists s, w'.
Qed.

Lemma mutation_keyword_refused_witness :
  In (lit "DELETE") mutation_keywords /\
  occurs_caseless (lit "DELETE") (lit "select 1; Delete from memory") /\
  exists w',
    execute_sql Stub.collaborators (JStr (lit "select 1; Delete from memory"))
      (Stub.world [Stub.dentist_note] Stub.silent)
    = (Ret read_only_error, w') /\
    db w' = [Stub.dentist_note] /\
    trace w' = [EvExecuteSql (JStr (lit "select 1; Delete from memory"))] /\
    datastore_events (trace w') = [].
Proof.
  assert (Hin : In (lit "DELETE") mutation_keywords) by (simpl; auto).
  assert (Hocc : occurs_caseless (lit "DELETE") (lit "select 1; Delete from memory")).
  { exists (lit "select 1; "), (lit "Delete"), (lit " from memory").
    split; [reflexivity|].
    repeat constructor; (left; reflexivity) || (right; reflexivity). }
  split; [exact Hin|]. split; [exact Hocc|].
  exact (mutation_keyword_refused Stub.collaborators _ _
           (Stub.world [Stub.dentist_note] Stub.silent) Hin Hocc).
Defined.

(** C9.  The guard is substring containment and nothing more.  A query is
    refused exactly when its uppercased text has one of "DELETE", "DROP",
    "UPDATE", "INSERT" as a substring.  So a read-only query with such a
    keyword inside a longer word is refused; and a query that is not
    refused reaches [conn.execute] as it is once the connection is open,
    which is the case of statements that mutate through other keywords
    (REPLACE, ALTER, CREATE). *)
Theorem guard_is_substring_containment (C : Collaborators) :
  (forall q w,
     refuses C q w <->
     exists kw, In kw mutation_keywords /\ substring kw (upper (unicode_upper C) q)) /\
  (forall w,
     refuses C (lit "SELECT text FROM memory WHERE tags LIKE '%updated%'") w) /\
  (forall q w,
     ~ refuses C q w ->
     sqlite3_connect C (db w) = None ->
     exists s w' evs,
       execute_sql C (JStr q) w = (Ret s, w') /\
       trace w' = trace w ++ EvExecuteSql (JStr q) :: EvConnect :: EvExecute q :: evs /\
       db w' = snd (conn_execute C q (db w))) /\
  (forall q w,
     In q [lit "REPLACE INTO memory (text, tags, timestamp) VALUES ('x', 'y', 'z')";
           lit "ALTER TABLE memory RENAME TO forgotten";
           lit "CREATE TABLE scratch (x)"] ->
     ~ refuses C q w).
Proof.
  split; [|split; [|split]].
  - intros q w. rewrite refuses_iff_guard. apply has_mutation_keyword_spec.
  - intros w. apply guard_true_refuses. reflexivity.
  - intros q w NR Hc. apply guard_false_forwards; [|assumption].
    destruct (has_mutation_keyword (unicode_upper C) q) eqn:G; [|reflexivity].
    exfalso. apply NR. now apply guard_true_refuses.
  - intros q w Hin R. apply refuses_iff_guard in R.
    simpl in Hin. destruct Hin as [<- | [<- | [<- | []]]]; vm_compute in R; discriminate.
Qed.

(** C4, as it stands, fails: a valid read-only query that yields zero rows
    and has a keyword inside its pattern is answered with the read-only
    error, not with the sentinel.  On a store without Notes the query
    leaves the store as it is and yields no row; [execute_sql] refuses
    it. *)
Lemma keyword_in_pattern_gets_no_sentinel :
  Stub.conn_execute Stub.select_like_update [] = (inr [], []) /\
  fst (execute_sql Stub.collaborators (JStr Stub.select_like_update)
         (Stub.world [] Stub.silent))
  = Ret read_only_error /\
  fst (execute_sql Stub.collaborators (JStr Stub.select_like_update)
         (Stub.world [] Stub.silent))
  <> Ret no_results.
Proof.
  split; [reflexivity|]. split; [reflexivity|]. vm_compute. discriminate.
Qed.

(** C4, amended.  For every query that passes the keyword guard and whose
    execution yields zero rows, [execute_sql] returns the fixed "no
    results" sentinel; the sentinel differs from the serialization of any
    list of rows and from both kinds of error string. *)
Theorem zero_rows_give_sentinel
    (C : Collaborators) (q : pystr) (w : World C) (d : Db C) :
  JsonLaws C ->
  has_mutation_keyword (unicode_upper C) q = false ->
  sqlite3_connect C (db w) = None ->
  conn_execute C q (db w) = (inr [], d) ->
  fst (execute_sql C (JStr q) w) = Ret no_results /\
  (forall rows, json_dumps_default_str C rows <> no_results) /\
  no_results <> read_only_error /\
  (forall e, no_results <> sql_error e).
Proof.
  intros L G Hc Hq. split; [|split; [|split]].
  - now rewrite (execute_sql_rows C q w [] d G Hc Hq).
  - apply no_results_is_no_list, L.
  - discriminate.
  - intros e. discriminate.
Qed.

Lemma zero_rows_give_sentinel_witness :
  JsonLaws Stub.collaborators /\
  has_mutation_keyword Stub.unicode_upper Stub.select_text = false /\
  Stub.conn_execute Stub.select_text [] = (inr [], []) /\
  fst (execute_sql Stub.collaborators (JStr Stub.select_text)
         (Stub.world [] Stub.silent))
  = Ret no_results.
Proof.
  split; [exact stub_json_laws|]. split; [reflexivity|]. split; [reflexivity|].
  exact (proj1 (zero_rows_give_sentinel Stub.collaborators Stub.select_text
                  (Stub.world [] Stub.silent) []
                  stub_json_laws eq_refl eq_refl eq_refl)).
Defined.

(** C5, as it stands, fails: the keys of the mappings are the columns of
    the result, not those of the store.  A valid read-only query that
    selects the [text] column alone, on a store with one Note, yields one
    mapping whose only key is "text". *)
Lemma selected_column_is_the_only_key :
  Stub.conn_execute Stub.select_text [Stub.dentist_note]
  = (inr [[(lit "text", SqlText (note_text Stub.dentist_note))]],
     [Stub.dentist_note]) /\
  exists out members,
    fst (execute_sql Stub.collaborators (JStr Stub.select_text)
           (Stub.world [Stub.dentist_note] Stub.silent))
    = Ret out /\
    out = json_dumps_default_str Stub.collaborators
            [[(lit "text", SqlText (note_text Stub.dentist_note))]] /\
    Stub.loads out = inr (JArr [JObj members]) /\
    map fst members = [lit "text"] /\
    map fst members <> note_columns.
Proof.
  split; [reflexivity|].
  eexists _, _. split; [reflexivity|]. split; [reflexivity|].
  split; [vm_compute; reflexivity|].
  split; [reflexivity|]. discriminate.
Qed.

(** C5, amended.  For every query that passes the keyword guard and whose
    execution yields at least one row, the output of [execute_sql]
    deserializes to a sequence with one mapping per row, in the order of
    the rows.  The keys of a mapping are the column names of the result
    row, each once, in the order of their first occurrence; under a key
    stands the value [row[key]], as it is when [json] serializes its type
    natively and through [str] when it is [bytes].  (Rows are taken as
    [sqlite3] builds them: text decoded from UTF-8 and no NaN, the values
    on which [json.loads] undoes [json.dumps].)  When no two columns
    of the row share a name up to case, the mapping has exactly the
    columns of the row with their values; so the keys are the columns of a
    Note when those are the columns of the result. *)
Theorem rows_are_serialized
    (C : Collaborators) (q : pystr) (w : World C) (fetched : list Row) (d : Db C) :
  JsonLaws C ->
  has_mutation_keyword (unicode_upper C) q = false ->
  sqlite3_connect C (db w) = None ->
  conn_execute C q (db w) = (inr fetched, d) ->
  forallb row_wf fetched = true ->
  fetched <> [] ->
  exists out,
    fst (execute_sql C (JStr q) w) = Ret out /\
    json_loads C out
    = inr (JArr (map (fun row => json_object (dict_of_row row)) fetched)) /\
    forall row, In row fetched ->
      exists members,
        json_object (dict_of_row row) = JObj members /\
        map fst members = distinct (row_keys row) /\
        (forall k x, In (k, x) members ->
           exists v, row_getitem row k = Some v /\ x = jsonable v) /\
        (unambiguous (row_keys row) = true ->
           members = map (fun kv => (fst kv, jsonable (snd kv))) row) /\
        (row_keys row = note_columns -> map fst members = note_columns).
Proof.
  intros L G Hc Hq W Hne.
  rewrite (execute_sql_rows C q w fetched d G Hc Hq).
  destruct fetched as [|row0 rest]; [contradiction|].
  eexists. split; [reflexivity|]. split.
  - unfold json_dumps_default_str. rewrite map_map.
    apply (loads_encode C L). now apply json_rows_wf.
  - intros row _. eexists. split; [reflexivity|].
    assert (K : map fst (map (fun kv => (fst kv, jsonable (snd kv)))
                           (dict_of_row row)) = distinct (row_keys row)).
    { rewrite map_map. simpl. apply dict_of_row_keys. }
    split; [exact K|]. split; [|split].
    + intros k x Hin. apply in_map_iff in Hin.
      destruct Hin as [[k' v] [E Hin]]. simpl in E. injection E as -> <-.
      exists v. split; [now apply dict_of_row_value | reflexivity].
    + intros U. now rewrite dict_of_row_unambiguous.
    + intros E. rewrite K, E. reflexivity.
Qed.

Lemma rows_are_serialized_witness :
  JsonLaws Stub.collaborators /\
  has_mutation_keyword Stub.unicode_upper Stub.select_notes = false /\
  Stub.conn_execute Stub.select_notes [Stub.dentist_note]
  = (inr [Stub.all_columns Stub.dentist_note], [Stub.dentist_note]) /\
  forallb row_wf [Stub.all_columns Stub.dentist_note] = true /\
  [Stub.all_columns Stub.dentist_note] <> [] /\
  exists out,
    fst (execute_sql Stub.collaborators (JStr Stub.select_notes)
           (Stub.world [Stub.dentist_note] Stub.silent))
    = Ret out /\
    Stub.loads out
    = inr (JArr [JObj [(lit "text", JStr (lit "Dentist appointment next Tuesday"));
                       (lit "tags", JStr (lit "health,appointment"));
                       (lit "timestamp", JStr (lit "2026-11-03 18:05:00"))]]).
Proof.
  split; [exact stub_json_laws|]. split; [reflexivity|]. split; [reflexivity|].
  split; [reflexivity|]. split; [discriminate|].
  destruct (rows_are_serialized Stub.collaborators Stub.select_notes
              (Stub.world [Stub.dentist_note] Stub.silent)
              [Stub.all_columns Stub.dentist_note] [Stub.dentist_note]
              stub_json_laws eq_refl eq_refl eq_refl eq_refl)
    as [out [E [D _]]]; [discriminate|].
  exists out. split; [exact E|]. exact D.
Defined.

(** ** Ingestion *)

(** The scenario of the specification: the classifier answers with the
    tags "health,appointment"; the Note is stored with them and they are
    reported to the caller. *)
Example remember_dentist :
  remember Stub.collaborators {| text := lit "Dentist appointment next Tuesday" |}
    (Stub.world []
       (Stub.classifying [(lit "tags", JStr (lit "health,appointment"))]))
  = (Ret {| status := lit "saved"; tags := JStr (lit "health,appointment") |},
     Build_World (C := Stub.collaborators)
       [ {| note_text := lit "Dentist appointment next Tuesday";
            note_tags := JStr (lit "health,appointment");
            note_timestamp := lit "2026-11-04 09:30:00" |} ]
       (Stub.classifying [(lit "tags", JStr (lit "health,appointment"))])
       [EvGenerate (classifier_prompt
                      {| text := lit "Dentist appointment next Tuesday" |});
        EvConnect;
        EvInsert {| note_text := lit "Dentist appointment next Tuesday";
                    note_tags := JStr (lit "health,appointment");
                    note_timestamp := lit "2026-11-04 09:30:00" |}]).
Proof. vm_compute. reflexivity. Qed.

(** C6, as it stands, fails on both counts.  A request with an empty text
    is accepted and its Note persisted with that empty text; and a
    classification that carries an empty tags string is stored as it is,
    not as "general". *)
Lemma empty_text_and_empty_tags_are_persisted :
  (exists r w',
     remember Stub.collaborators {| text := [] |}
       (Stub.world [] (Stub.classifying [(lit "tags", JStr (lit "misc"))]))
     = (Ret r, w') /\
     db w' = [ {| note_text := [];
                  note_tags := JStr (lit "misc");
                  note_timestamp := lit "2026-11-04 09:30:00" |} ]) /\
  (exists r w',
     remember Stub.collaborators {| text := lit "Call the plumber" |}
       (Stub.world [] (Stub.classifying [(lit "tags", JStr [])]))
     = (Ret r, w') /\
     db w' = [ {| note_text := lit "Call the plumber";
                  note_tags := JStr [];
                  note_timestamp := lit "2026-11-04 09:30:00" |} ] /\
     JStr [] <> JStr (lit "general")).
Proof.
  split.
  - eexists _, _. split; [vm_compute; reflexivity | reflexivity].
  - eexists _, _. split; [vm_compute; reflexivity|].
    split; [reflexivity | discriminate].
Qed.

(** A failing path of [remember]: the exception [e] is turned into the
    error of the request, after the events [evs], none of which is an
    INSERT. *)
Ltac fails_with e evs :=
  eexists _, _, evs; split; [reflexivity|];
  split; [cbn [trace]; repeat (rewrite <- app_assoc; simpl); reflexivity|];
  left; exists e; split; [reflexivity|]; split; [reflexivity|];
  intros n Hn; simpl in Hn; intuition discriminate.

(** C6, amended.  Either [remember] fails with an error of status 500 and
    persists nothing, or it persists exactly one Note, which has the text
    of the request as it was received (no check is made that it is not
    empty), the tags it reports to the caller, and the time of the
    request; the tags are "general" whenever the object the classifier
    answered with has no "tags" key. *)
Theorem remember_persists_the_request
    (C : Collaborators) (request : ThoughtRequest) (w : World C) :
  exists out w' evs,
    remember C request w = (out, w') /\
    trace w' = trace w ++ evs /\
    ((exists e,
        out = Raise (HTTPException 500 (str_exn e)) /\
        db w' = db w /\
        forall n, ~ In (EvInsert n) evs)
     \/
     (exists tags_,
        out = Ret {| status := lit "saved"; tags := tags_ |} /\
        let n := {| note_text := text request;
                    note_tags := tags_;
                    note_timestamp := strftime_now C (lit "%Y-%m-%d %H:%M:%S") |} in
        conn_insert C n (db w) = inr (db w') /\
        evs = [EvGenerate (classifier_prompt request); EvConnect; EvInsert n] /\
        forall s g members,
          generate_content C (classifier_prompt request) (engine w) = (inr (Some s), g) ->
          json_loads C s = inr (JObj members) ->
          dict_get members (lit "tags") = None ->
          tags_ = JStr (lit "general"))).
Proof.
  unfold remember, remember_body, client_generate_content, loads_text,
    method_get, connect, insert_note, try_except, bind, emit, with_engine,
    with_db, lift, raise, ret.
  cbn [db engine trace].
  destruct (generate_content C (classifier_prompt request) (engine w))
    as [[e|[s|]] g] eqn:Hg; cbn [db engine trace].
  - fails_with e [EvGenerate (classifier_prompt request)].
  - destruct (json_loads C s) as [e|parsed] eqn:Hl; cbn [db engine trace].
    + fails_with e [EvGenerate (classifier_prompt request)].
    + destruct parsed as [| | | | | |members];
        try (eexists _, _, [EvGenerate (classifier_prompt request)];
             split; [reflexivity|];
             split; [reflexivity|];
             left; eexists; split; [reflexivity|]; split; [reflexivity|];
             intros n Hn; simpl in Hn; intuition discriminate).
      destruct (dict_get members (lit "tags")) as [x|] eqn:Hd;
        cbn [db engine trace];
        (destruct (sqlite3_connect C (db w)) as [e|] eqn:Hc; cbn [db engine trace];
         [ fails_with e [EvGenerate (classifier_prompt request); EvConnect]
         | match goal with
           | |- context [conn_insert C ?n (db w)] =>
               destruct (conn_insert C n (db w)) as [e|d] eqn:Hi
           end; cbn [db engine trace];
           [ fails_with e [EvGenerate (classifier_prompt request); EvConnect]
           | eexists _, _, _; split; [reflexivity|];
             split; [cbn [trace]; repeat (rewrite <- app_assoc; simpl); reflexivity|];
             right; eexists; split; [reflexivity|];
             cbn zeta; split; [exact Hi|]; split; [reflexivity|];
             intros s' g' members' Hg' Hl' Hd';
             injection Hg' as <- <-; rewrite Hl in Hl'; injection Hl' as <-;
             rewrite Hd in Hd'; (discriminate || reflexivity) ] ]).
  - fails_with (TypeError
      (lit "the JSON object must be str, bytes or bytearray, not NoneType"))
      [EvGenerate (classifier_prompt request)].
Qed.

(** C7.  When the Tag Classifier call raises, or its answer has no text or
    is not JSON, so that [json.loads] raises, [remember] persists no Note:
    the store is unchanged, no event of the datastore is added, and the
    caller gets an error of status 500 that carries the text of the
    exception. *)
Theorem classification_failure_persists_nothing
    (C : Collaborators) (request : ThoughtRequest) (w : World C) (e : exn) :
  classification_fails C request w e ->
  exists w',
    remember C request w = (Raise (HTTPException 500 (str_exn e)), w') /\
    db w' = db w /\
    trace w' = trace w ++ [EvGenerate (classifier_prompt request)] /\
    datastore_events (trace w') = datastore_events (trace w).
Proof.
  intros H.
  unfold remember, remember_body, client_generate_content, loads_text,
    try_except, bind, emit, with_engine, lift, raise, ret.
  cbn [db engine trace].
  destruct H as [e g Hg | g Hg | s e g Hg Hl]; rewrite Hg; cbn [db engine trace];
    try rewrite Hl;
    (eexists; split; [reflexivity|]; split; [reflexivity|];
     split; [reflexivity|]; cbn [trace];
     rewrite datastore_events_app; simpl; apply app_nil_r).
Qed.

Lemma classification_failure_persists_nothing_witness :
  classification_fails Stub.collaborators {| text := lit "Buy milk" |}
    (Stub.world [Stub.dentist_note] Stub.silent)
    (ExternalError (lit "503 UNAVAILABLE")) /\
  exists w',
    remember Stub.collaborators {| text := lit "Buy milk" |}
      (Stub.world [Stub.dentist_note] Stub.silent)
    = (Raise (HTTPException 500 (lit "503 UNAVAILABLE")), w') /\
    db w' = [Stub.dentist_note].
Proof.
  assert (H : classification_fails Stub.collaborators {| text := lit "Buy milk" |}
                (Stub.world [Stub.dentist_note] Stub.silent)
                (ExternalError (lit "503 UNAVAILABLE"))).
  { apply (classifier_raises Stub.collaborators _ _ _ Stub.silent). reflexivity. }
  split; [exact H|].
  destruct (classification_failure_persists_nothing Stub.collaborators _ _ _ H)
    as [w' [E [D _]]].
  exists w'. split; [exact E | exact D].
Defined.

(** ** The agent loop *)

(** C8.  Whatever exception the body of [remind] raises, the caller gets
    the same error of status 500 with the fixed text "Memory retrieval
    failed.", in which the exception does not occur; the exception itself
    is printed and nothing else happens. *)
Theorem remind_failure_is_generic
    (C : Collaborators) (fuel : nat) (request : QueryRequest)
    (w w1 : World C) (e : exn) :
  remind_body C fuel request w = (Raise e, w1) ->
  remind C fuel request w
  = (Raise (HTTPException 500 retrieval_failed), logged w1 [EvPrintExn e]).
Proof.
  intros Hbody. unfold remind, try_except. rewrite Hbody.
  unfold bind, emit, raise, logged. reflexivity.
Qed.

(** The first part of the first candidate decides, whatever follows it. *)
Lemma first_part_of (part : Part) (later : list Part) (others : list Candidate)
    (txt : option pystr) :
  first_part {| candidates :=
                  Some ({| content := Some {| parts := Some (part :: later) |} |}
                        :: others);
                response_text := txt |} = inr part.
Proof. reflexivity. Qed.

(** C10.  The loop looks at the first part of the first candidate only.
    Let the first turn of the engine have [part] as that part, followed by
    any parts [later] and any candidates [others].  If [part] carries no
    function call the turn is the final answer: [remind] returns its text
    and [execute_sql] is not called, whatever [later] and [others] hold.
    If [part] carries a function call whose arguments lack "sql_query",
    the lookup raises [KeyError] and [remind] fails.  If they hold it, the
    loop runs [execute_sql] on that value and sends the result back. *)
Theorem first_part_decides
    (C : Collaborators) (fuel : nat) (request : QueryRequest) (w : World C)
    (g1 g2 : Engine C)
    (part : Part) (later : list Part) (others : list Candidate)
    (txt : option pystr) :
  let response :=
    {| candidates :=
         Some ({| content := Some {| parts := Some (part :: later) |} |} :: others);
       response_text := txt |} in
  let started :=
    Build_World (db w) g2
      (trace w ++ [EvChatCreate (sys_instruct (strftime_now C (lit "%Y-%m-%d")));
                   EvSend (UserText (question request));
                   EvTurn response]) in
  chats_create C (sys_instruct (strftime_now C (lit "%Y-%m-%d"))) (engine w) = inr g1 ->
  send_message C (UserText (question request)) g1 = (inr response, g2) ->
  (function_call part = None ->
   remind C (S fuel) request w = (Ret {| answer := txt |}, started)) /\
  (forall call arguments,
     function_call part = Some call ->
     args call = Some arguments ->
     dict_get arguments (lit "sql_query") = None ->
     remind C (S fuel) request w
     = (Raise (HTTPException 500 retrieval_failed),
        logged started [EvPrintExn (KeyError (lit "sql_query"))])) /\
  (forall call query,
     function_call part = Some call ->
     args_getitem call (lit "sql_query") = inr query ->
     react_loop C (S fuel) response started
     = bind (emit (EvPrintQuery query)) (fun _ =>
         bind (execute_sql C query) (fun result =>
           bind (chat_send_message C (FunctionResponse (lit "execute_sql") result))
             (fun next => react_loop C fuel next))) started).
Proof.
  intros response started Hcreate Hsend.
  pose proof (remind_body_start C (S fuel) request w g1 g2 response
                Hcreate Hsend) as Hstart.
  fold started in Hstart.
  split; [|split].
  - intros Hf. unfold remind, try_except. rewrite Hstart. unfold bind.
    rewrite react_loop_final; [reflexivity|].
    exists part. split; [apply first_part_of | exact Hf].
  - intros call arguments Hf Ha Hd.
    apply handler_flattens_failure.
    rewrite Hstart. unfold bind.
    rewrite (react_loop_bad_arguments C fuel response part call
               (KeyError (lit "sql_query"))); try reflexivity; try assumption.
    unfold args_getitem. now rewrite Ha, Hd.
  - intros call query Hf Ha. apply react_loop_tool.
    exists part, call. split; [apply first_part_of|]. now split.
Qed.

Lemma remind_failure_is_generic_witness :
  remind_body Stub.collaborators 3 Stub.dentist_question
    (Stub.world [Stub.dentist_note] (Stub.scripted [Stub.call_without_query]))
  = (Raise (KeyError (lit "sql_query")),
     Build_World (C := Stub.collaborators) [Stub.dentist_note] (Stub.scripted [])
       [EvChatCreate (sys_instruct (lit "2026-11-04"));
        EvSend (UserText (question Stub.dentist_question));
        EvTurn Stub.call_without_query]) /\
  remind Stub.collaborators 3 Stub.dentist_question
    (Stub.world [Stub.dentist_note] (Stub.scripted [Stub.call_without_query]))
  = (Raise (HTTPException 500 retrieval_failed),
     Build_World (C := Stub.collaborators) [Stub.dentist_note] (Stub.scripted [])
       [EvChatCreate (sys_instruct (lit "2026-11-04"));
        EvSend (UserText (question Stub.dentist_question));
        EvTurn Stub.call_without_query;
        EvPrintExn (KeyError (lit "sql_query"))]).
Proof.
  assert (H : remind_body Stub.collaborators 3 Stub.dentist_question
                (Stub.world [Stub.dentist_note]
                   (Stub.scripted [Stub.call_without_query]))
              = (Raise (KeyError (lit "sql_query")),
                 Build_World (C := Stub.collaborators) [Stub.dentist_note]
                   (Stub.scripted [])
                   [EvChatCreate (sys_instruct (lit "2026-11-04"));
                    EvSend (UserText (question Stub.dentist_question));
                    EvTurn Stub.call_without_query])) by reflexivity.
  split; [exact H|].
  exact (remind_failure_is_generic Stub.collaborators 3 Stub.dentist_question
           _ _ _ H).
Defined.

Lemma first_part_decides_witness :
  Stub.send_message (UserText (question Stub.dentist_question))
    (Stub.scripted [Stub.talk_then_call; Stub.answer_turn])
  = (inr Stub.talk_then_call, Stub.scripted [Stub.answer_turn]) /\
  contains_tool_invocation Stub.talk_then_call /\
  remind Stub.collaborators 1 Stub.dentist_question
    (Stub.world [Stub.dentist_note]
       (Stub.scripted [Stub.talk_then_call; Stub.answer_turn]))
  = (Ret {| answer := Some (lit "Let me look that up.") |},
     Build_World (C := Stub.collaborators) [Stub.dentist_note]
       (Stub.scripted [Stub.answer_turn])
       [EvChatCreate (sys_instruct (lit "2026-11-04"));
        EvSend (UserText (question Stub.dentist_question));
        EvTurn Stub.talk_then_call]).
Proof.
  split; [reflexivity|]. split.
  - exact talk_then_call_invokes.
  - exact (proj1 (first_part_decides Stub.collaborators 0 Stub.dentist_question
                    (Stub.world [Stub.dentist_note]
                       (Stub.scripted [Stub.talk_then_call; Stub.answer_turn]))
                    (Stub.scripted [Stub.talk_then_call; Stub.answer_turn])
                    (Stub.scripted [Stub.answer_turn])
                    (Stub.text_part (lit "Let me look that up."))
                    [Stub.call_part [(lit "sql_query", JStr Stub.select_notes)]]
                    [] (Some (lit "Let me look that up."))
                    eq_refl eq_refl) eq_refl).
Defined.

(** The scenario of the specification: the engine first asks for a query,
    the executor returns the matching row, the engine then answers. *)
Example remind_dentist :
  fst (remind Stub.collaborators 2 Stub.dentist_question
         (Stub.world [Stub.dentist_note]
            (Stub.scripted [Stub.call_turn; Stub.answer_turn])))
  = Ret {| answer := Some Stub.dentist_answer |}.
Proof. vm_compute. reflexivity. Qed.

(** C2, as it stands, fails: a turn that carries its tool invocation in a
    later part is not run.  The engine below answers with text alone on
    its second call, after one turn that holds a tool invocation; the
    loop makes no call of [execute_sql], not one, and answers with the
    text of the first turn, not of the second. *)
Lemma invocation_in_later_part_is_not_run :
  contains_tool_invocation Stub.talk_then_call /\
  final_turn Stub.answer_turn /\
  exists w',
    remind Stub.collaborators 5 Stub.dentist_question
      (Stub.world [Stub.dentist_note]
         (Stub.scripted [Stub.talk_then_call; Stub.answer_turn]))
    = (Ret {| answer := response_text Stub.talk_then_call |}, w') /\
    execute_sql_calls (trace w') = 0%nat /\
    turns (trace w') = [Stub.talk_then_call] /\
    response_text Stub.talk_then_call <> response_text Stub.answer_turn.
Proof.
  split; [|split].
  - exact talk_then_call_invokes.
  - eexists. split; reflexivity.
  - eexists. split; [reflexivity|]. split; [reflexivity|].
    split; [reflexivity | discriminate].
Qed.

(** C2, amended.  Call a tool turn a turn whose first part of the first
    candidate carries the function call, with a "sql_query" argument, and
    a final turn one whose first part carries none.  If the chat can be
    created and the engine then returns a final turn on its [N]th call,
    after [N - 1] tool turns, whatever it is sent, then [remind], given
    fuel for [N] turns, calls [execute_sql] exactly [N - 1] times,
    receives exactly [N] turns, and returns the text of the [N]th. *)
Theorem loop_calls_and_answer
    (C : Collaborators) (N fuel : nat) (request : QueryRequest) (w : World C)
    (g1 : Engine C) :
  chats_create C (sys_instruct (strftime_now C (lit "%Y-%m-%d"))) (engine w) = inr g1 ->
  answers_on_call C N g1 ->
  (N <= fuel)%nat ->
  exists final w' evs,
    remind C fuel request w = (Ret {| answer := response_text final |}, w') /\
    trace w' = trace w ++ evs /\
    execute_sql_calls evs = (N - 1)%nat /\
    List.length (turns evs) = N /\
    nth_error (turns evs) (N - 1) = Some final.
Proof.
  intros Hcreate Hplay Hfuel.
  destruct N as [|n]; [destruct Hplay|].
  destruct (Hplay (UserText (question request))) as [response [g2 [Hsend Hleft]]].
  pose proof (remind_body_start C fuel request w g1 g2 response Hcreate Hsend)
    as Hstart.
  destruct (react_loop_runs C n fuel response
              (Build_World (db w) g2
                 (trace w ++ [EvChatCreate (sys_instruct (strftime_now C (lit "%Y-%m-%d")));
                              EvSend (UserText (question request));
                              EvTurn response])))
    as [final [w' [evs [E [T [Hc [Hl Hn]]]]]]]; [lia | exact Hleft |].
  exists final, w',
    ([EvChatCreate (sys_instruct (strftime_now C (lit "%Y-%m-%d")));
      EvSend (UserText (question request)); EvTurn response] ++ evs).
  split; [|split; [|split; [|split]]].
  - unfold remind, try_except. rewrite Hstart. unfold bind. rewrite E. reflexivity.
  - rewrite T. cbn [trace]. now rewrite <- app_assoc.
  - rewrite execute_sql_calls_app, Hc. simpl. lia.
  - rewrite turns_app, length_app, Hl. reflexivity.
  - rewrite turns_app. simpl. replace (n - 0)%nat with n by lia. exact Hn.
Qed.

Lemma loop_calls_and_answer_witness :
  answers_on_call Stub.collaborators 2
    (Stub.scripted [Stub.call_turn; Stub.answer_turn]) /\
  exists final w' evs,
    remind Stub.collaborators 2 Stub.dentist_question
      (Stub.world [Stub.dentist_note]
         (Stub.scripted [Stub.call_turn; Stub.answer_turn]))
    = (Ret {| answer := response_text final |}, w') /\
    trace w' = evs /\
    execute_sql_calls evs = 1%nat /\
    List.length (turns evs) = 2%nat /\
    nth_error (turns evs) 1 = Some final.
Proof.
  assert (H : answers_on_call Stub.collaborators 2
                (Stub.scripted [Stub.call_turn; Stub.answer_turn])).
  { intros m. eexists _, _. split; [reflexivity|]. split.
    - eexists. eexists _, _. repeat split; reflexivity.
    - intros m'. eexists _, _. split; [reflexivity|].
      eexists. split; reflexivity. }
  split; [exact H|].
  exact (loop_calls_and_answer Stub.collaborators 2 2 Stub.dentist_question
           (Stub.world [Stub.dentist_note]
              (Stub.scripted [Stub.call_turn; Stub.answer_turn]))
           (Stub.scripted [Stub.call_turn; Stub.answer_turn])
           eq_refl H (le_n 2)).
Defined.

(** * Further properties of the code *)

(** ** Startup and the authentication gate *)

(** X1.  The configuration of lines 14-23 yields a running process exactly
    when both GEMINI_API_KEY and DONTFORGET_SECRET_KEY are set to
    non-empty values, which it then holds unchanged; otherwise the process
    stops with a [ValueError] that names the first variable found missing,
    the engine's key being looked at first. *)
Theorem startup_needs_both_keys (getenv : pystr -> option pystr) :
  (forall cfg,
     load_config getenv = Started cfg <->
     getenv (lit "GEMINI_API_KEY") = Some (GEMINI_KEY cfg) /\
     GEMINI_KEY cfg <> [] /\
     getenv (lit "DONTFORGET_SECRET_KEY") = Some (SERVER_SECRET cfg) /\
     SERVER_SECRET cfg <> []) /\
  (load_config getenv = ValueError (lit "GEMINI_API_KEY missing in .env") <->
   getenv (lit "GEMINI_API_KEY") = None \/
   getenv (lit "GEMINI_API_KEY") = Some []) /\
  (load_config getenv = ValueError (lit "DONTFORGET_SECRET_KEY missing in .env") <->
   (exists key, getenv (lit "GEMINI_API_KEY") = Some key /\ key <> []) /\
   (getenv (lit "DONTFORGET_SECRET_KEY") = None \/
    getenv (lit "DONTFORGET_SECRET_KEY") = Some [])).
Proof.
  unfold load_config.
  destruct (getenv (lit "GEMINI_API_KEY")) as [[|c key]|];
    destruct (getenv (lit "DONTFORGET_SECRET_KEY")) as [[|c' secret]|];
    (split; [intros [k s]; simpl; split;
               [ intros H; try discriminate; injection H as <- <-;
                 repeat split; discriminate
               | intros [H1 [H2 [H3 H4]]]; try discriminate;
                 try (injection H1 as <-); try (injection H3 as <-);
                 congruence ]
            | split; split;
               try (intros H; discriminate H);
               try (intros _; auto; fail);
               try (intros [H | H]; discriminate H);
               try (intros [[k [H Hk]] _]; try discriminate H;
                    injection H as <-; congruence);
               try (intros [_ [H | H]]; discriminate H);
               try (intros _; split; [eexists; split; [reflexivity|discriminate]|auto]) ]).
Qed.

(** X2.  A request is served exactly when its [x-api-key] is the
    configured secret.  Under a configuration that lets the process start,
    a request whose key is empty or differs from DONTFORGET_SECRET_KEY gets
    the error 401 on each of the three routes and nothing happens: no
    classifier call, no chat, no access to the store, no event.  With the
    secret as key each route is its handler. *)
Theorem key_decides_service
    (C : Collaborators) (getenv : pystr -> option pystr) (cfg : Config)
    (key : pystr) (fuel : nat)
    (thought : ThoughtRequest) (query : QueryRequest) (w : World C) :
  load_config getenv = Started cfg ->
  ((key = [] \/ getenv (lit "DONTFORGET_SECRET_KEY") <> Some key) ->
   get_health C cfg key w = (Raise (HTTPException 401 invalid_api_key), w) /\
   post_remember C cfg key thought w = (Raise (HTTPException 401 invalid_api_key), w) /\
   post_remind C cfg fuel key query w = (Raise (HTTPException 401 invalid_api_key), w)) /\
  (getenv (lit "DONTFORGET_SECRET_KEY") = Some key ->
   get_health C cfg key w = health C w /\
   post_remember C cfg key thought w = remember C thought w /\
   post_remind C cfg fuel key query w = remind C fuel query w).
Proof.
  intros Hstart.
  assert (Hs : getenv (lit "DONTFORGET_SECRET_KEY") = Some (SERVER_SECRET cfg) /\
               SERVER_SECRET cfg <> []).
  { unfold load_config in Hstart.
    destruct (getenv (lit "GEMINI_API_KEY")) as [[|c k]|]; try discriminate.
    destruct (getenv (lit "DONTFORGET_SECRET_KEY")) as [[|c' s]|]; try discriminate.
    injection Hstart as <-. simpl. split; [reflexivity | discriminate]. }
  destruct Hs as [Hget Hne].
  unfold get_health, post_remember, post_remind, depends, verify_api_key, bind.
  split.
  - intros Hkey.
    assert (E : pystr_eqb key (SERVER_SECRET cfg) = false).
    { apply pystr_eqb_neq. destruct Hkey as [-> | Hkey]; congruence. }
    rewrite E. simpl. repeat split.
  - intros Hkey. rewrite Hget in Hkey. injection Hkey as <-.
    rewrite pystr_eqb_refl. simpl. repeat split.
Qed.

Lemma key_decides_service_witness :
  load_config (fun name => if pystr_eqb name (lit "GEMINI_API_KEY")
                           then Some (lit "AIza-key")
                           else Some (lit "s3cret"))
  = Started {| GEMINI_KEY := lit "AIza-key"; SERVER_SECRET := lit "s3cret" |} /\
  post_remember Stub.collaborators
    {| GEMINI_KEY := lit "AIza-key"; SERVER_SECRET := lit "s3cret" |}
    (lit "S3CRET") {| text := lit "Buy milk" |}
    (Stub.world [] (Stub.classifying [(lit "tags", JStr (lit "shopping"))]))
  = (Raise (HTTPException 401 invalid_api_key),
     Stub.world [] (Stub.classifying [(lit "tags", JStr (lit "shopping"))])).
Proof.
  split; [reflexivity|].
  refine (proj1 (proj2 (proj1
    (key_decides_service Stub.collaborators
       (fun name => if pystr_eqb name (lit "GEMINI_API_KEY")
                    then Some (lit "AIza-key") else Some (lit "s3cret"))
       _ (lit "S3CRET") 0 {| text := lit "Buy milk" |} Stub.dentist_question
       (Stub.world [] (Stub.classifying [(lit "tags", JStr (lit "shopping"))]))
       eq_refl) _))).
  right. discriminate.
Defined.

(** ** The guard *)

Lemma substring_app (x s pre post : pystr) :
  substring x s -> substring x (pre ++ s ++ post).
Proof.
  intros [a [b ->]]. exists (pre ++ a), (b ++ post).
  now rewrite <- !app_assoc.
Qed.

(** X3.  Nothing put before or after a refused text makes it pass: if the
    guard of line 59 refuses a query, it refuses every text that contains
    it (a comment, white space or another statement around it). *)
Theorem refusal_survives_wrapping
    (C : Collaborators) (q pre post : pystr) (w w' : World C) :
  refuses C q w -> refuses C (pre ++ q ++ post) w'.
Proof.
  intros R. apply refuses_iff_guard in R. apply guard_true_refuses.
  apply has_mutation_keyword_spec in R. destruct R as [kw [Hin Hsub]].
  apply has_mutation_keyword_spec. exists kw. split; [assumption|].
  rewrite !upper_app. now apply substring_app.
Qed.

Lemma refusal_survives_wrapping_witness :
  refuses Stub.collaborators (lit "drop table memory")
    (Stub.world [] Stub.silent) /\
  refuses Stub.collaborators
    (lit "SELECT 1; -- harmless" ++ lit "drop table memory" ++ lit " /* x */")
    (Stub.world [Stub.dentist_note] Stub.silent).
Proof.
  assert (R : refuses Stub.collaborators (lit "drop table memory")
                (Stub.world [] Stub.silent)) by reflexivity.
  split; [exact R|].
  exact (refusal_survives_wrapping Stub.collaborators _ _ _ _ _ R).
Defined.

Lemma upper_ascii up (q : pystr) :
  is_ascii q = true -> upper up q = map ascii_upper q.
Proof.
  unfold is_ascii, upper. induction q as [|c q IH]; intros H; [reflexivity|].
  simpl in H. apply andb_true_iff in H. destruct H as [Hc Hq].
  simpl. rewrite IH by assumption.
  unfold upper_char, ascii_upper. rewrite Hc.
  now destruct ((97 <=? c) && (c <=? 122)).
Qed.

Lemma ascii_upper_letter (c k : N) :
  65 <= k <= 90 -> ascii_upper c = k -> same_letter c k.
Proof.
  intros Hk. unfold ascii_upper, same_letter.
  destruct ((97 <=? c) && (c <=? 122)) eqn:E.
  - apply andb_true_iff in E. destruct E as [E1 E2].
    apply N.leb_le in E1. intros <-. right. lia.
  - intros ->. now left.
Qed.

Lemma ascii_upper_caseless (mid kw : pystr) :
  Forall (fun k => 65 <= k <= 90) kw ->
  map ascii_upper mid = kw -> Forall2 same_letter mid kw.
Proof.
  revert kw. induction mid as [|c mid IH]; intros kw Hkw E.
  - simpl in E. subst. constructor.
  - simpl in E. subst. inversion Hkw; subst.
    constructor; [now apply ascii_upper_letter | now apply IH].
Qed.

(** X4.  On ASCII text the guard is exactly case-insensitive keyword
    search: an ASCII query is refused if and only if one of DELETE, DROP,
    UPDATE, INSERT occurs in it in some mix of upper and lower case.  (The
    Unicode uppercase table plays no part for such text.) *)
Theorem ascii_refusal_is_caseless_search
    (C : Collaborators) (q : pystr) (w : World C) :
  is_ascii q = true ->
  (refuses C q w <-> exists kw, In kw mutation_keywords /\ occurs_caseless kw q).
Proof.
  intros A. rewrite refuses_iff_guard. split.
  - intros G. apply has_mutation_keyword_spec in G.
    destruct G as [kw [Hin [a [b E]]]]. exists kw. split; [assumption|].
    rewrite (upper_ascii _ q A) in E.
    apply map_eq_app in E. destruct E as [pre [rest [-> [_ E]]]].
    apply map_eq_app in E. destruct E as [mid [post [-> [E _]]]].
    exists pre, mid, post. split; [reflexivity|].
    apply ascii_upper_caseless; [|assumption].
    pose proof mutation_keywords_uppercase as HU.
    rewrite Forall_forall in HU. now apply HU.
  - intros [kw [Hin Hocc]]. now apply (caseless_keyword_refused _ q kw).
Qed.

Lemma ascii_refusal_is_caseless_search_witness :
  is_ascii (lit "select * from memory where text like '%Insert%'") = true /\
  (refuses Stub.collaborators
     (lit "select * from memory where text like '%Insert%'")
     (Stub.world [] Stub.silent) <->
   exists kw, In kw mutation_keywords /\
     occurs_caseless kw (lit "select * from memory where text like '%Insert%'")).
Proof.
  split; [reflexivity|].
  exact (ascii_refusal_is_caseless_search Stub.collaborators
           (lit "select * from memory where text like '%Insert%'")
           (Stub.world [] Stub.silent) eq_refl).
Defined.

(** ** The paths of [execute_sql], once more *)

(** X5.  The connection is closed only when the statement ran.  Past the
    guard and once connected, [conn.close()] is reached exactly when
    [conn.execute] and [fetchall] returned; when they raise,
    [execute_sql] returns the "SQL Error" text of the exception, the
    connection opened on line 61 is left open, and the store is in the
    state the failed statement left it in. *)
Theorem close_follows_success
    (C : Collaborators) (q : pystr) (w : World C) :
  has_mutation_keyword (unicode_upper C) q = false ->
  sqlite3_connect C (db w) = None ->
  exists s w' evs,
    execute_sql C (JStr q) w = (Ret s, w') /\
    trace w' = trace w ++ evs /\
    (In EvClose evs <->
     exists fetched d, conn_execute C q (db w) = (inr fetched, d)) /\
    (forall e d, conn_execute C q (db w) = (inl e, d) ->
       s = sql_error e /\ db w' = d /\
       evs = [EvExecuteSql (JStr q); EvConnect; EvExecute q]).
Proof.
  intros G Hc.
  destruct (conn_execute C q (db w)) as [[e|fetched] d] eqn:Hq.
  - eexists _, _, _. rewrite (execute_sql_query_fails C q w e d G Hc Hq).
    split; [reflexivity|]. split; [reflexivity|]. split.
    + split.
      * intros Hin. simpl in Hin. intuition discriminate.
      * intros [fetched [d' H]]. discriminate.
    + intros e' d' H. injection H as <- <-. repeat split.
  - eexists _, _, _. rewrite (execute_sql_rows C q w fetched d G Hc Hq).
    split; [reflexivity|]. split; [reflexivity|]. split.
    + split; [intros _; now exists fetched, d|].
      intros _. simpl. auto.
    + intros e' d' H. discriminate.
Qed.

Lemma close_follows_success_witness :
  has_mutation_keyword Stub.unicode_upper (lit "SELEC text FROM memory") = false /\
  Stub.conn_execute (lit "SELEC text FROM memory") [Stub.dentist_note]
  = (inl (ExternalError (lit "syntax error")), [Stub.dentist_note]) /\
  exists s w' evs,
    execute_sql Stub.collaborators (JStr (lit "SELEC text FROM memory"))
      (Stub.world [Stub.dentist_note] Stub.silent) = (Ret s, w') /\
    trace w' = evs /\
    (In EvClose evs <->
     exists fetched d,
       Stub.conn_execute (lit "SELEC text FROM memory") [Stub.dentist_note]
       = (inr fetched, d)).
Proof.
  split; [reflexivity|]. split; [reflexivity|].
  destruct (close_follows_success Stub.collaborators
              (lit "SELEC text FROM memory")
              (Stub.world [Stub.dentist_note] Stub.silent) eq_refl eq_refl)
    as [s [w' [evs [E [T [H _]]]]]].
  exists s, w', evs. split; [exact E|]. split; [exact T | exact H].
Defined.

(** X6.  What [execute_sql] does to the store: nothing when its argument
    is not a string, when the guard refuses it, or when the connection
    fails; otherwise the store is what [conn.execute] left, whether the
    statement returned or raised.  The engine is never touched. *)
Theorem execute_sql_store_effect
    (C : Collaborators) (sql_query : JValue) (w : World C) :
  db (snd (execute_sql C sql_query w))
  = match sql_query with
    | JStr q =>
        if has_mutation_keyword (unicode_upper C) q then db w
        else match sqlite3_connect C (db w) with
             | Some _ => db w
             | None => snd (conn_execute C q (db w))
             end
    | _ => db w
    end /\
  engine (snd (execute_sql C sql_query w)) = engine w.
Proof.
  destruct sql_query as [| | | |q| |];
    try (rewrite execute_sql_not_str by discriminate; split; reflexivity).
  destruct (has_mutation_keyword (unicode_upper C) q) eqn:G.
  - rewrite (guard_true_refuses C q w G). split; reflexivity.
  - destruct (sqlite3_connect C (db w)) as [e|] eqn:Hc.
    + rewrite (execute_sql_connect_fails C q w e G Hc). split; reflexivity.
    + destruct (conn_execute C q (db w)) as [[e|fetched] d] eqn:Hq.
      * rewrite (execute_sql_query_fails C q w e d G Hc Hq). split; reflexivity.
      * rewrite (execute_sql_rows C q w fetched d G Hc Hq). split; reflexivity.
Qed.

Lemma Ret_inj {A} (a b : A) : Ret a = Ret b -> a = b.
Proof. intros H. now injection H. Qed.

(** X7.  The output tells the outcome (the [json] module keeping its
    laws).  [execute_sql] returns the read-only error exactly when its
    argument is a string the guard refuses; the "no results" sentinel
    exactly when the statement passed the guard, ran and fetched no row;
    and the serialization of a non-empty list of rows exactly when it
    fetched at least one, that list being the fetched rows as
    dictionaries. *)
Theorem output_tells_outcome
    (C : Collaborators) (sql_query : JValue) (w : World C) :
  JsonLaws C ->
  (fst (execute_sql C sql_query w) = Ret read_only_error <->
   exists q, sql_query = JStr q /\
             has_mutation_keyword (unicode_upper C) q = true) /\
  (fst (execute_sql C sql_query w) = Ret no_results <->
   exists q d, sql_query = JStr q /\
               has_mutation_keyword (unicode_upper C) q = false /\
               sqlite3_connect C (db w) = None /\
               conn_execute C q (db w) = (inr [], d)) /\
  (forall rows,
     rows <> [] ->
     fst (execute_sql C sql_query w) = Ret (json_dumps_default_str C rows) ->
     exists q fetched d,
       sql_query = JStr q /\
       has_mutation_keyword (unicode_upper C) q = false /\
       sqlite3_connect C (db w) = None /\
       conn_execute C q (db w) = (inr fetched, d) /\
       fetched <> [] /\
       json_dumps_default_str C rows
       = json_dumps_default_str C (map dict_of_row fetched)).
Proof.
  intros L.
  assert (NL : forall rows s, json_dumps_default_str C rows = 83 :: s -> False).
  { intros rows s. unfold json_dumps_default_str.
    destruct (encode_array C L (map json_object rows)) as [t ->]. discriminate. }
  destruct (execute_sql C sql_query w) as [out w'] eqn:E. cbn [fst].
  destruct sql_query as [| | | |q| |];
    try (rewrite execute_sql_not_str in E by discriminate;
         injection E as <- _;
         split; [split; [discriminate | intros [q [H _]]; discriminate]|];
         split; [split; [discriminate | intros [q [d [H _]]]; discriminate]|];
         intros rows _ H; apply Ret_inj in H; symmetry in H;
         exfalso; exact (NL _ _ H)).
  destruct (has_mutation_keyword (unicode_upper C) q) eqn:G.
  - rewrite (guard_true_refuses C q w G) in E. injection E as <- _.
    split; [|split].
    + split; [intros _; now exists q | reflexivity].
    + split; [discriminate|].
      intros [q' [d [E [G' _]]]]. injection E as <-. congruence.
    + intros rows _ H. apply Ret_inj in H. symmetry in H.
      exfalso. exact (read_only_error_is_no_list C L rows H).
  - destruct (sqlite3_connect C (db w)) as [e|] eqn:Hc.
    + rewrite (execute_sql_connect_fails C q w e G Hc) in E. injection E as <- _.
      split; [|split].
      * split; [discriminate|].
        intros [q' [E G']]. injection E as <-. congruence.
      * split; [discriminate|].
        intros [q' [d [_ [_ [H _]]]]]. discriminate.
      * intros rows _ H. apply Ret_inj in H. symmetry in H.
        exfalso. exact (NL _ _ H).
    + destruct (conn_execute C q (db w)) as [[e|fetched] d] eqn:Hq.
      * rewrite (execute_sql_query_fails C q w e d G Hc Hq) in E.
        injection E as <- _. split; [|split].
        -- split; [discriminate|].
           intros [q' [E G']]. injection E as <-. congruence.
        -- split; [discriminate|].
           intros [q' [d' [E [_ [_ H]]]]]. injection E as <-.
           rewrite Hq in H. discriminate.
        -- intros rows _ H. apply Ret_inj in H. symmetry in H.
           exfalso. exact (NL _ _ H).
      * rewrite (execute_sql_rows C q w fetched d G Hc Hq) in E.
        injection E as <- _.
        destruct fetched as [|row fetched]; (split; [|split]).
        -- split; [discriminate|].
           intros [q' [E G']]. injection E as <-. congruence.
        -- split; [intros _; now exists q, d | reflexivity].
        -- intros rows _ H. apply Ret_inj in H. symmetry in H.
           exfalso. exact (no_results_is_no_list C L rows H).
        -- split.
           ++ intros H. apply Ret_inj in H.
              exfalso. exact (read_only_error_is_no_list C L _ H).
           ++ intros [q' [E G']]. injection E as <-. congruence.
        -- split.
           ++ intros H. apply Ret_inj in H.
              exfalso. exact (no_results_is_no_list C L _ H).
           ++ intros [q' [d' [E [_ [_ H]]]]]. injection E as <-.
              rewrite Hq in H. discriminate.
        -- intros rows _ H. apply Ret_inj in H.
           exists q, (row :: fetched), d. repeat split; try assumption.
           ++ discriminate.
           ++ now symmetry.
Qed.

Lemma output_tells_outcome_witness :
  JsonLaws Stub.collaborators /\
  (fst (execute_sql Stub.collaborators (JStr Stub.select_text)
          (Stub.world [] Stub.silent)) = Ret no_results <->
   exists q d,
     JStr Stub.select_text = JStr q /\
     has_mutation_keyword Stub.unicode_upper q = false /\
     @None exn = None /\
     Stub.conn_execute q [] = (inr [], d)).
Proof.
  split; [exact stub_json_laws|].
  exact (proj1 (proj2 (output_tells_outcome Stub.collaborators
                         (JStr Stub.select_text) (Stub.world [] Stub.silent)
                         stub_json_laws))).
Defined.

(** ** The dictionaries made of rows *)

Lemma distinct_after_complete (keys seen : list pystr) (k : pystr) :
  In k keys -> ~ In k seen -> In k (distinct_after seen keys).
Proof.
  revert seen. induction keys as [|k' keys IH]; intros seen Hin Hs; [destruct Hin|].
  simpl. destruct (existsb (pystr_eqb k') seen) eqn:E.
  - apply seen_spec in E. destruct Hin as [-> | Hin]; [contradiction|].
    now apply IH.
  - destruct Hin as [-> | Hin]; [now left|].
    destruct (list_eq_dec N.eq_dec k' k) as [-> | Hne]; [now left|].
    right. apply IH; [assumption|].
    intros [H | H]; [contradiction | contradiction].
Qed.

Lemma dict_get_items (row : Row) (keys : list pystr) (k : pystr) :
  dict_get (map (item_at row) keys) k
  = if existsb (pystr_eqb k) keys then Some (value_at row k) else None.
Proof.
  induction keys as [|k' keys IH]; [reflexivity|].
  simpl. destruct (pystr_eqb k' k) eqn:E.
  - apply pystr_eqb_eq in E. subst. now rewrite pystr_eqb_refl.
  - assert (E' : pystr_eqb k k' = false).
    { apply pystr_eqb_neq. apply pystr_eqb_neq in E. congruence. }
    rewrite E'. simpl. exact IH.
Qed.

(** X8.  Looking a column up in [dict(row)] gives what [row[name]] gives:
    for a name of the row, the value of the first column that has this
    name up to ASCII case, so that of two columns with one name the
    second value is lost, and a name that differs only by case from an
    earlier one gets the earlier column's value; a name the row does not
    have is not a key. *)
Theorem dict_of_row_lookup (row : Row) (k : pystr) :
  dict_get (dict_of_row row) k
  = if existsb (pystr_eqb k) (row_keys row) then row_getitem row k else None.
Proof.
  rewrite dict_of_row_items, dict_get_items.
  destruct (existsb (pystr_eqb k) (row_keys row)) eqn:E.
  - apply seen_spec in E.
    replace (existsb (pystr_eqb k) (distinct (row_keys row))) with true.
    + symmetry. now apply row_getitem_key.
    + symmetry. apply seen_spec.
      apply distinct_after_complete; [assumption | intros []].
  - replace (existsb (pystr_eqb k) (distinct (row_keys row))) with false;
      [reflexivity|].
    symmetry. apply not_true_is_false. intros H. apply seen_spec in H.
    apply (distinct_after_sound (row_keys row) []) in H. destruct H as [_ H].
    apply seen_spec in H. congruence.
Qed.

Lemma distinct_after_length (keys seen : list pystr) :
  (List.length (distinct_after seen keys) <= List.length keys)%nat.
Proof.
  revert seen. induction keys as [|k keys IH]; intros seen; simpl; [lia|].
  destruct (existsb (pystr_eqb k) seen); simpl.
  - specialize (IH seen). lia.
  - specialize (IH (k :: seen)). lia.
Qed.

Lemma distinct_after_full (keys seen : list pystr) :
  List.length (distinct_after seen keys) = List.length keys ->
  NoDup keys /\ forall k, In k keys -> ~ In k seen.
Proof.
  revert seen. induction keys as [|k keys IH]; intros seen H.
  - split; [constructor | intros k []].
  - simpl in H. destruct (existsb (pystr_eqb k) seen) eqn:E.
    + pose proof (distinct_after_length keys seen). lia.
    + simpl in H. injection H as H. destruct (IH (k :: seen) H) as [ND Hf].
      split.
      * constructor; [|assumption]. intros Hin. apply (Hf k Hin). now left.
      * intros k' [<- | Hin].
        -- rewrite <- seen_spec. congruence.
        -- intros Hs. apply (Hf k' Hin). now right.
Qed.

(** X9.  [dict(row)] never has more entries than the row has columns, and
    it has as many exactly when no two columns of the row bear the same
    name: a query that yields two columns of one name (a join, a repeated
    expression) loses a value in the output. *)
Theorem dict_of_row_size (row : Row) :
  (List.length (dict_of_row row) <= List.length row)%nat /\
  (List.length (dict_of_row row) = List.length row <-> NoDup (row_keys row)).
Proof.
  rewrite dict_of_row_items, length_map.
  replace (List.length row) with (List.length (row_keys row))
    by apply length_map.
  split; [apply distinct_after_length|]. split.
  - intros H. now apply (distinct_after_full (row_keys row) []).
  - intros ND. unfold distinct. rewrite distinct_after_fresh; auto.
Qed.

(** ** Runs of the loop *)

Lemma function_responses_app (a b : list Event) :
  function_responses (a ++ b) = (function_responses a + function_responses b)%nat.
Proof. unfold function_responses. now rewrite filter_app, length_app. Qed.

Lemma datastore_only_no_responses (evs : list Event) :
  Forall (fun ev => is_datastore_event ev = true) evs ->
  function_responses evs = 0%nat.
Proof.
  induction 1 as [|ev evs Hev _ IH]; [reflexivity|].
  unfold function_responses in *. simpl.
  destruct ev; try discriminate; simpl; exact IH.
Qed.

Section Runs.

Variable C : Collaborators.

(** One call of [execute_sql], as [remind] sees it. *)
Lemma execute_sql_step (v : JValue) (w : World C) :
  exists s w' evs,
    execute_sql C v w = (Ret s, w') /\
    engine w' = engine w /\
    trace w' = trace w ++ EvExecuteSql v :: evs /\
    Forall (fun ev => is_datastore_event ev = true) evs /\
    Forall (remind_event (unicode_upper C)) evs /\
    (guard_adequate C -> db w' = db w).
Proof.
  destruct v as [| | | |q| |];
    try (eexists _, _, []; rewrite execute_sql_not_str by discriminate;
         repeat split; constructor).
  destruct (has_mutation_keyword (unicode_upper C) q) eqn:G.
  - eexists _, _, []. rewrite (guard_true_refuses C q w G).
    repeat split; constructor.
  - destruct (sqlite3_connect C (db w)) as [e|] eqn:Hc.
    + eexists _, _, [EvConnect]. rewrite (execute_sql_connect_fails C q w e G Hc).
      repeat split; repeat constructor.
    + destruct (conn_execute C q (db w)) as [[e|fetched] d] eqn:Hq.
      * eexists _, _, [EvConnect; EvExecute q].
        rewrite (execute_sql_query_fails C q w e d G Hc Hq).
        repeat split; repeat constructor; try exact G.
        intros A. simpl. specialize (A q (db w) G). now rewrite Hq in A.
      * eexists _, _, [EvConnect; EvExecute q; EvClose].
        rewrite (execute_sql_rows C q w fetched d G Hc Hq).
        repeat split; repeat constructor; try exact G.
        intros A. simpl. specialize (A q (db w) G). now rewrite Hq in A.
Qed.

(** The loop, by what its condition and its lookups find. *)
Lemma react_loop_cases (fuel : nat) (response : Response) (w : World C) :
  react_loop C (S fuel) response w
  = match first_part response with
    | inl e => (Raise e, w)
    | inr part =>
        match function_call part with
        | None => (Ret response, w)
        | Some call =>
            match args_getitem call (lit "sql_query") with
            | inl e => (Raise e, w)
            | inr query =>
                bind (emit (EvPrintQuery query)) (fun _ =>
                  bind (execute_sql C query) (fun result =>
                    bind (chat_send_message C
                            (FunctionResponse (lit "execute_sql") result))
                      (fun next => react_loop C fuel next))) w
            end
        end
    end.
Proof.
  destruct (first_part response) as [e|part] eqn:Hp.
  - cbn [react_loop]. unfold bind, lift. rewrite Hp. reflexivity.
  - destruct (function_call part) as [call|] eqn:Hf.
    + destruct (args_getitem call (lit "sql_query")) as [e|query] eqn:Ha.
      * now apply (react_loop_bad_arguments C fuel response part call e w).
      * apply react_loop_tool. now exists part, call.
    + apply react_loop_final. now exists part.
Qed.

(** What a run of the loop adds to the trace, however it ends. *)
Lemma react_loop_trace (fuel : nat) :
  forall (response : Response) (w : World C),
    exists evs,
      trace (snd (react_loop C fuel response w)) = trace w ++ evs /\
      Forall (remind_event (unicode_upper C)) evs /\
      function_responses evs = execute_sql_calls evs /\
      (guard_adequate C -> db (snd (react_loop C fuel response w)) = db w).
Proof.
  induction fuel as [|fuel IH]; intros response w.
  - exists []. simpl. rewrite app_nil_r. repeat split. constructor.
  - destruct (react_loop C (S fuel) response w) as [o wf] eqn:E. cbn [snd].
    rewrite react_loop_cases in E.
    destruct (first_part response) as [e|part];
      [injection E as <- <-; exists []; rewrite app_nil_r;
       repeat split; constructor|].
    destruct (function_call part) as [call|];
      [|injection E as <- <-; exists []; rewrite app_nil_r;
        repeat split; constructor].
    destruct (args_getitem call (lit "sql_query")) as [e|query];
      [injection E as <- <-; exists []; rewrite app_nil_r;
       repeat split; constructor|].
    unfold bind at 1, emit at 1 in E.
    destruct (execute_sql_step query
                (Build_World (db w) (engine w) (trace w ++ [EvPrintQuery query])))
      as [s [w1 [evs1 [E1 [G1 [T1 [D1 [P1 A1]]]]]]]].
    cbn [db engine trace] in G1, T1, A1.
    unfold bind at 1 in E. rewrite E1 in E. unfold bind at 1 in E.
    pose proof (datastore_only_no_calls evs1 D1) as [Hc1 _].
    pose proof (datastore_only_no_responses evs1 D1) as Hr1.
    destruct (send_message C (FunctionResponse (lit "execute_sql") s) (engine w1))
      as [[e|next] g] eqn:Hsend.
    + rewrite (chat_send_message_raises C _ w1 e g Hsend) in E.
      injection E as <- <-.
      exists (EvPrintQuery query :: EvExecuteSql query :: evs1
              ++ [EvSend (FunctionResponse (lit "execute_sql") s)]).
      cbn [trace db]. split; [|split; [|split]].
      * rewrite T1. rewrite <- !app_assoc. reflexivity.
      * constructor; [exact I|]. constructor; [exact I|].
        apply Forall_app. split; [exact P1|]. repeat constructor.
      * change (EvPrintQuery query :: EvExecuteSql query :: evs1 ++ _)
          with ([EvPrintQuery query; EvExecuteSql query] ++ evs1
                ++ [EvSend (FunctionResponse (lit "execute_sql") s)]).
        rewrite !function_responses_app, !execute_sql_calls_app, Hc1, Hr1.
        reflexivity.
      * exact A1.
    + rewrite (chat_send_message_turn C _ w1 next g Hsend) in E.
      destruct (IH next
                  (Build_World (db w1) g
                     (trace w1 ++ [EvSend (FunctionResponse (lit "execute_sql") s);
                                   EvTurn next])))
        as [evs [T [P [Hn A]]]].
      rewrite E in T, A. cbn [snd db trace] in T, A.
      exists (EvPrintQuery query :: EvExecuteSql query :: evs1
              ++ [EvSend (FunctionResponse (lit "execute_sql") s); EvTurn next]
              ++ evs).
      split; [|split; [|split]].
      * rewrite T, T1. rewrite <- !app_assoc. reflexivity.
      * constructor; [exact I|]. constructor; [exact I|].
        apply Forall_app. split; [exact P1|].
        constructor; [reflexivity|]. constructor; [exact I | exact P].
      * change (EvPrintQuery query :: EvExecuteSql query :: evs1 ++ _)
          with ([EvPrintQuery query; EvExecuteSql query] ++ evs1
                ++ [EvSend (FunctionResponse (lit "execute_sql") s); EvTurn next]
                ++ evs).
        rewrite !function_responses_app, !execute_sql_calls_app, Hc1, Hr1, Hn.
        reflexivity.
      * intros Ad. rewrite (A Ad). now apply A1.
Qed.

(** What a run of [remind] adds to the trace, however it ends. *)
Lemma remind_trace (fuel : nat) (request : QueryRequest) (w : World C) :
  exists evs,
    trace (snd (remind C fuel request w)) = trace w ++ evs /\
    Forall (remind_event (unicode_upper C)) evs /\
    function_responses evs = execute_sql_calls evs /\
    (guard_adequate C -> db (snd (remind C fuel request w)) = db w).
Proof.
  destruct (remind C fuel request w) as [o wf] eqn:E. cbn [snd].
  unfold remind, try_except, remind_body in E.
  set (instruct := sys_instruct (strftime_now C (lit "%Y-%m-%d"))) in E.
  unfold bind at 1, client_chats_create, bind at 1, emit at 1, with_engine, lift
    in E.
  cbn [db engine trace] in E.
  destruct (chats_create C instruct (engine w)) as [e|g1] eqn:Hcreate.
  - cbn in E. injection E as <- <-.
    exists [EvChatCreate instruct; EvPrintExn e]. cbn [trace db].
    rewrite <- app_assoc. repeat split; repeat constructor.
  - unfold ret at 1 in E. unfold bind at 1 in E.
    destruct (send_message C (UserText (question request)) g1)
      as [[e|response] g2] eqn:Hsend.
    + rewrite (chat_send_message_raises C (UserText (question request))
                 (Build_World (db w) g1 _) e g2 Hsend) in E.
      cbn in E. injection E as <- <-.
      exists [EvChatCreate instruct; EvSend (UserText (question request));
              EvPrintExn e].
      cbn [trace db]. rewrite <- !app_assoc. repeat split; repeat constructor.
    + rewrite (chat_send_message_turn C (UserText (question request))
                 (Build_World (db w) g1 _) response g2 Hsend) in E.
      cbn [db engine trace] in E.
      destruct (react_loop_trace fuel response
                  (Build_World (db w) g2
                     ((trace w ++ [EvChatCreate instruct])
                      ++ [EvSend (UserText (question request)); EvTurn response])))
        as [evs [T [P [Hn A]]]].
      unfold bind at 1 in E.
      destruct (react_loop C fuel response _) as [[final|e|] w1];
        cbn [snd trace db] in T, A; cbn in E; injection E as <- <-.
      * exists ([EvChatCreate instruct; EvSend (UserText (question request));
                 EvTurn response] ++ evs).
        rewrite T. rewrite <- !app_assoc.
        split; [reflexivity|]. split; [repeat constructor; exact P|].
        split; [|exact A].
        rewrite function_responses_app, execute_sql_calls_app, Hn. reflexivity.
      * exists ([EvChatCreate instruct; EvSend (UserText (question request));
                 EvTurn response] ++ evs ++ [EvPrintExn e]).
        cbn [trace db]. rewrite T. rewrite <- !app_assoc.
        split; [reflexivity|]. split.
        { repeat constructor. apply Forall_app. split; [exact P|].
          repeat constructor. }
        split; [|exact A].
        rewrite !function_responses_app, !execute_sql_calls_app, Hn.
        reflexivity.
      * exists ([EvChatCreate instruct; EvSend (UserText (question request));
                 EvTurn response] ++ evs).
        rewrite T. rewrite <- !app_assoc.
        split; [reflexivity|]. split; [repeat constructor; exact P|].
        split; [|exact A].
        rewrite function_responses_app, execute_sql_calls_app, Hn. reflexivity.
Qed.

End Runs.

(** X10.  Whatever the engine asks for and however the run ends (answer,
    error or no end within the bound), no statement with DELETE, DROP,
    UPDATE or INSERT in its uppercased text reaches [conn.execute] during
    [remind], and [remind] neither inserts a Note nor calls the
    classifier. *)
Theorem remind_executes_guarded_statements_only
    (C : Collaborators) (fuel : nat) (request : QueryRequest) (w : World C) :
  exists evs,
    trace (snd (remind C fuel request w)) = trace w ++ evs /\
    (forall sql, In (EvExecute sql) evs ->
       has_mutation_keyword (unicode_upper C) sql = false) /\
    (forall n, ~ In (EvInsert n) evs) /\
    (forall prompt, ~ In (EvGenerate prompt) evs).
Proof.
  destruct (remind_trace C fuel request w) as [evs [T [P _]]].
  exists evs. split; [exact T|].
  rewrite Forall_forall in P. repeat split.
  - intros sql Hin. exact (P _ Hin).
  - intros n Hin. exact (P _ Hin).
  - intros prompt Hin. exact (P _ Hin).
Qed.

(** X11.  Every result of [execute_sql] goes back to the engine: in any
    run of [remind], however it ends, the function responses sent are as
    many as the calls of [execute_sql], and each is sent under the name
    "execute_sql". *)
Theorem remind_answers_every_call
    (C : Collaborators) (fuel : nat) (request : QueryRequest) (w : World C) :
  exists evs,
    trace (snd (remind C fuel request w)) = trace w ++ evs /\
    function_responses evs = execute_sql_calls evs /\
    (forall name result,
       In (EvSend (FunctionResponse name result)) evs ->
       name = lit "execute_sql").
Proof.
  destruct (remind_trace C fuel request w) as [evs [T [P [Hn _]]]].
  exists evs. split; [exact T|]. split; [exact Hn|].
  rewrite Forall_forall in P. intros name result Hin. exact (P _ Hin).
Qed.

(** X12.  [remind] is as read-only as the guard is adequate: if every
    statement that passes the guard leaves the store as it is, then
    [remind] leaves the store as it is, whatever the engine asks for and
    however the run ends. *)
Theorem remind_keeps_the_store
    (C : Collaborators) (fuel : nat) (request : QueryRequest) (w : World C) :
  guard_adequate C ->
  db (snd (remind C fuel request w)) = db w.
Proof.
  intros A. destruct (remind_trace C fuel request w) as [evs [_ [_ [_ H]]]].
  exact (H A).
Qed.

Lemma stub_guard_adequate : guard_adequate Stub.collaborators.
Proof.
  intros q d _. simpl. unfold Stub.conn_execute.
  repeat (match goal with
          | |- context [if ?b then _ else _] => destruct b
          end; try reflexivity).
Qed.

Lemma remind_keeps_the_store_witness :
  guard_adequate Stub.collaborators /\
  db (snd (remind Stub.collaborators 4 Stub.dentist_question
             (Stub.world [Stub.dentist_note]
                (Stub.scripted [Stub.call_turn; Stub.answer_turn]))))
  = [Stub.dentist_note].
Proof.
  split; [exact stub_guard_adequate|].
  exact (remind_keeps_the_store Stub.collaborators 4 Stub.dentist_question
           (Stub.world [Stub.dentist_note]
              (Stub.scripted [Stub.call_turn; Stub.answer_turn]))
           stub_guard_adequate).
Defined.

(** X13.  A query the executor turns down does not end the loop.  When the
    first part of a turn asks for a query that is not a string, or that
    the guard refuses, the loop runs no statement: it sends the error
    text back to the engine as the function response (the "SQL Error"
    text of the [AttributeError], or the read-only error) and goes on
    with the engine's next turn, the store untouched. *)
Theorem rejected_query_is_fed_back
    (C : Collaborators) (fuel : nat) (response : Response) (query : JValue)
    (result : pystr) (w : World C) :
  tool_turn query response ->
  ((forall q, query <> JStr q) /\
   result = sql_error (AttributeError (lit "'" ++ type_name query
                                       ++ lit "' object has no attribute 'upper'"))
   \/
   (exists q, query = JStr q /\
              has_mutation_keyword (unicode_upper C) q = true) /\
   result = read_only_error) ->
  react_loop C (S fuel) response w
  = bind (chat_send_message C (FunctionResponse (lit "execute_sql") result))
      (fun next => react_loop C fuel next)
      (logged w [EvPrintQuery query; EvExecuteSql query]).
Proof.
  intros Htool Hcase.
  rewrite (react_loop_tool C fuel response query w Htool).
  unfold bind at 1, emit at 1. unfold bind at 1.
  destruct Hcase as [[Hns ->] | [[q [-> G]] ->]].
  - rewrite execute_sql_not_str by assumption.
    unfold logged. cbn [db engine trace]. now rewrite <- app_assoc.
  - rewrite (guard_true_refuses C q _ G).
    unfold logged. cbn [db engine trace]. now rewrite <- app_assoc.
Qed.

Lemma rejected_query_is_fed_back_witness :
  tool_turn (JInt 7)
    (Stub.turn [Stub.call_part [(lit "sql_query", JInt 7)]] None) /\
  fst (remind Stub.collaborators 3 Stub.dentist_question
         (Stub.world [Stub.dentist_note]
            (Stub.scripted
               [Stub.turn [Stub.call_part [(lit "sql_query", JInt 7)]] None;
                Stub.answer_turn])))
  = Ret {| answer := Some Stub.dentist_answer |} /\
  react_loop Stub.collaborators 2
    (Stub.turn [Stub.call_part [(lit "sql_query", JInt 7)]] None)
    (Stub.world [Stub.dentist_note] (Stub.scripted [Stub.answer_turn]))
  = bind (chat_send_message Stub.collaborators
            (FunctionResponse (lit "execute_sql")
               (lit "SQL Error: 'int' object has no attribute 'upper'")))
      (fun next => react_loop Stub.collaborators 1 next)
      (logged (Stub.world [Stub.dentist_note] (Stub.scripted [Stub.answer_turn]))
         [EvPrintQuery (JInt 7); EvExecuteSql (JInt 7)]).
Proof.
  assert (T : tool_turn (JInt 7)
                (Stub.turn [Stub.call_part [(lit "sql_query", JInt 7)]] None)).
  { eexists _, _. repeat split; reflexivity. }
  split; [exact T|]. split; [vm_compute; reflexivity|].
  apply (rejected_query_is_fed_back Stub.collaborators 1 _ (JInt 7) _ _ T).
  left. split; [discriminate | reflexivity].
Defined.

(** X14.  The loop never looks at the name of the function the engine
    calls: two turns that differ only in that name (and in their text)
    make the loop do the same, so a call of any name with a "sql_query"
    argument runs [execute_sql]. *)
Theorem function_name_is_ignored
    (C : Collaborators) (fuel : nat) (name1 name2 : option pystr)
    (arguments : option (dict JValue)) (text1 text2 : option pystr)
    (later1 later2 : list Part) (others1 others2 : list Candidate)
    (txt1 txt2 : option pystr) (w : World C) :
  react_loop C (S fuel)
    {| candidates :=
         Some ({| content :=
                    Some {| parts :=
                              Some ({| function_call :=
                                         Some {| fc_name := name1;
                                                 args := arguments |};
                                       part_text := text1 |} :: later1) |} |}
               :: others1);
       response_text := txt1 |} w
  = react_loop C (S fuel)
      {| candidates :=
           Some ({| content :=
                      Some {| parts :=
                                Some ({| function_call :=
                                           Some {| fc_name := name2;
                                                   args := arguments |};
                                         part_text := text2 |} :: later2) |} |}
                 :: others2);
         response_text := txt2 |} w.
Proof.
  rewrite !react_loop_cases. cbn [first_part candidates content parts function_call].
  unfold args_getitem. cbn [args]. reflexivity.
Qed.

(** X15.  A turn without a first part ends the request with the generic
    error before any query runs: when the first turn of the engine has no
    candidates, no content or no parts, so that
    [response.candidates[0].content.parts[0]] raises, [remind] fails with
    the error 500 "Memory retrieval failed.", the exception is printed,
    and [execute_sql] is never called. *)
Theorem turn_without_parts_fails
    (C : Collaborators) (fuel : nat) (request : QueryRequest) (w : World C)
    (g1 g2 : Engine C) (response : Response) (e : exn) :
  chats_create C (sys_instruct (strftime_now C (lit "%Y-%m-%d"))) (engine w) = inr g1 ->
  send_message C (UserText (question request)) g1 = (inr response, g2) ->
  first_part response = inl e ->
  remind C (S fuel) request w
  = (Raise (HTTPException 500 retrieval_failed),
     Build_World (db w) g2
       (trace w ++ [EvChatCreate (sys_instruct (strftime_now C (lit "%Y-%m-%d")));
                    EvSend (UserText (question request));
                    EvTurn response;
                    EvPrintExn e])).
Proof.
  intros Hcreate Hsend Hp.
  assert (Hbody : remind_body C (S fuel) request w
                  = (Raise e,
                     Build_World (db w) g2
                       (trace w
                        ++ [EvChatCreate (sys_instruct (strftime_now C (lit "%Y-%m-%d")));
                            EvSend (UserText (question request));
                            EvTurn response]))).
  { rewrite (remind_body_start C (S fuel) request w g1 g2 response Hcreate Hsend).
    unfold bind. rewrite react_loop_cases, Hp. reflexivity. }
  rewrite (handler_flattens_failure C (S fuel) request w _ e Hbody).
  unfold logged. cbn [db engine trace]. now rewrite <- app_assoc.
Qed.

Lemma turn_without_parts_fails_witness :
  first_part {| candidates := Some []; response_text := None |}
  = inl (IndexError (lit "list index out of range")) /\
  remind Stub.collaborators 1 Stub.dentist_question
    (Stub.world [Stub.dentist_note]
       (Stub.scripted [ {| candidates := Some []; response_text := None |} ]))
  = (Raise (HTTPException 500 retrieval_failed),
     Build_World (C := Stub.collaborators) [Stub.dentist_note] (Stub.scripted [])
       [EvChatCreate (sys_instruct (lit "2026-11-04"));
        EvSend (UserText (question Stub.dentist_question));
        EvTurn {| candidates := Some []; response_text := None |};
        EvPrintExn (IndexError (lit "list index out of range"))]).
Proof.
  split; [reflexivity|].
  exact (turn_without_parts_fails Stub.collaborators 0 Stub.dentist_question
           (Stub.world [Stub.dentist_note]
              (Stub.scripted [ {| candidates := Some []; response_text := None |} ]))
           (Stub.scripted [ {| candidates := Some []; response_text := None |} ])
           (Stub.scripted [])
           {| candidates := Some []; response_text := None |}
           (IndexError (lit "list index out of range"))
           eq_refl eq_refl eq_refl).
Defined.

(** While the engine keeps asking, the loop keeps calling. *)
Lemma asking_engine_exhausts_fuel
    (C : Collaborators) (asking : Engine C -> Prop) :
  (forall g m, asking g ->
     exists response g' query,
       send_message C m g = (inr response, g') /\
       tool_turn query response /\ asking g') ->
  forall fuel response (w : World C),
    asking (engine w) ->
    (exists query, tool_turn query response) ->
    exists w' evs,
      react_loop C fuel response w = (Diverge, w') /\
      trace w' = trace w ++ evs /\
      execute_sql_calls evs = fuel.
Proof.
  intros Hask. induction fuel as [|fuel IH]; intros response w Hg [query Htool].
  - exists w, []. simpl. now rewrite app_nil_r.
  - rewrite (react_loop_tool C fuel response query w Htool).
    unfold bind at 1, emit at 1.
    destruct (execute_sql_step C query
                (Build_World (db w) (engine w) (trace w ++ [EvPrintQuery query])))
      as [s [w1 [evs1 [E1 [G1 [T1 [D1 _]]]]]]].
    cbn [db engine trace] in G1, T1.
    unfold bind at 1. rewrite E1. unfold bind at 1.
    rewrite <- G1 in Hg.
    destruct (Hask (engine w1) (FunctionResponse (lit "execute_sql") s) Hg)
      as [next [g [query' [Hsend [Htool' Hg']]]]].
    rewrite (chat_send_message_turn C _ w1 next g Hsend).
    destruct (IH next
                (Build_World (db w1) g
                   (trace w1 ++ [EvSend (FunctionResponse (lit "execute_sql") s);
                                 EvTurn next])))
      as [w' [evs [E [T Hc]]]]; [exact Hg' | now exists query' |].
    exists w', ([EvPrintQuery query; EvExecuteSql query] ++ evs1
                ++ [EvSend (FunctionResponse (lit "execute_sql") s); EvTurn next]
                ++ evs).
    split; [exact E|]. split.
    + rewrite T. cbn [trace]. rewrite T1. rewrite <- !app_assoc. reflexivity.
    + pose proof (datastore_only_no_calls evs1 D1) as [Hc1 _].
      rewrite !execute_sql_calls_app, Hc1, Hc. reflexivity.
Qed.

(** X16.  The loop has no bound of its own.  Against an engine that
    answers every message with a turn asking for a query, no number of
    iterations ends the request: for every bound the run is still going
    on when the bound is reached, having called [execute_sql] once per
    iteration. *)
Theorem loop_has_no_bound
    (C : Collaborators) (asking : Engine C -> Prop) (fuel : nat)
    (request : QueryRequest) (w : World C) (g1 : Engine C) :
  (forall g m, asking g ->
     exists response g' query,
       send_message C m g = (inr response, g') /\
       tool_turn query response /\ asking g') ->
  chats_create C (sys_instruct (strftime_now C (lit "%Y-%m-%d"))) (engine w) = inr g1 ->
  asking g1 ->
  exists w' evs,
    remind C fuel request w = (Diverge, w') /\
    trace w' = trace w ++ evs /\
    execute_sql_calls evs = fuel.
Proof.
  intros Hask Hcreate Hg1.
  destruct (Hask g1 (UserText (question request)) Hg1)
    as [response [g2 [query [Hsend [Htool Hg2]]]]].
  destruct (asking_engine_exhausts_fuel C asking Hask fuel response
              (Build_World (db w) g2
                 (trace w ++ [EvChatCreate (sys_instruct (strftime_now C (lit "%Y-%m-%d")));
                              EvSend (UserText (question request));
                              EvTurn response])))
    as [w' [evs [E [T Hc]]]]; [exact Hg2 | now exists query |].
  exists w', ([EvChatCreate (sys_instruct (strftime_now C (lit "%Y-%m-%d")));
               EvSend (UserText (question request)); EvTurn response] ++ evs).
  split; [|split].
  - unfold remind, try_except.
    rewrite (remind_body_start C fuel request w g1 g2 response Hcreate Hsend).
    unfold bind. rewrite E. reflexivity.
  - rewrite T. cbn [trace]. now rewrite <- app_assoc.
  - rewrite execute_sql_calls_app, Hc. reflexivity.
Qed.

Lemma loop_has_no_bound_witness :
  (forall (g : unit) m, True ->
     exists response g' query,
       Eager.send_message m g = (inr response, g') /\
       tool_turn query response /\ True) /\
  exists w' evs,
    remind Eager.collaborators 25 Stub.dentist_question
      (Eager.world [Stub.dentist_note]) = (Diverge, w') /\
    trace w' = evs /\
    execute_sql_calls evs = 25%nat.
Proof.
  assert (H : forall (g : unit) m, True ->
                exists response g' query,
                  Eager.send_message m g = (inr response, g') /\
                  tool_turn query response /\ True).
  { intros g m _. exists Stub.call_turn, g, (JStr Stub.select_notes).
    split; [reflexivity|]. split; [|exact I].
    eexists _, _. repeat split; reflexivity. }
  split; [exact H|].
  exact (loop_has_no_bound Eager.collaborators (fun _ => True) 25
           Stub.dentist_question (Eager.world [Stub.dentist_note]) tt
           H eq_refl I).
Defined.





(** X18.  What the loop sends back is what [execute_sql] returned: on a
    turn whose first part asks for [query], the loop prints the query,
    calls [execute_sql] on it, which returns some string in every case,
    sends exactly that string as the function response named
    "execute_sql", and goes on with the turn the engine returns. *)
Theorem result_is_sent_verbatim
    (C : Collaborators) (fuel : nat) (response : Response) (query : JValue)
    (w : World C) :
  tool_turn query response ->
  exists result w1,
    execute_sql C query (logged w [EvPrintQuery query]) = (Ret result, w1) /\
    react_loop C (S fuel) response w
    = bind (chat_send_message C (FunctionResponse (lit "execute_sql") result))
        (fun next => react_loop C fuel next) w1.
Proof.
  intros Htool.
  destruct (execute_sql_step C query (logged w [EvPrintQuery query]))
    as [result [w1 [evs [E _]]]].
  exists result, w1. split; [exact E|].
  rewrite (react_loop_tool C fuel response query w Htool).
  unfold bind at 1, emit at 1. unfold bind at 1.
  unfold logged in E. now rewrite E.
Qed.

Lemma result_is_sent_verbatim_witness :
  tool_turn (JStr Stub.select_notes) Stub.call_turn /\
  exists result w1,
    execute_sql Stub.collaborators (JStr Stub.select_notes)
      (logged (Stub.world [Stub.dentist_note] (Stub.scripted [Stub.answer_turn]))
         [EvPrintQuery (JStr Stub.select_notes)]) = (Ret result, w1) /\
    react_loop Stub.collaborators 2 Stub.call_turn
      (Stub.world [Stub.dentist_note] (Stub.scripted [Stub.answer_turn]))
    = bind (chat_send_message Stub.collaborators
              (FunctionResponse (lit "execute_sql") result))
        (fun next => react_loop Stub.collaborators 1 next) w1.
Proof.
  assert (T : tool_turn (JStr Stub.select_notes) Stub.call_turn).
  { eexists _, _. repeat split; reflexivity. }
  split; [exact T|].
  exact (result_is_sent_verbatim Stub.collaborators 1 Stub.call_turn
           (JStr Stub.select_notes)
           (Stub.world [Stub.dentist_note] (Stub.scripted [Stub.answer_turn])) T).
Defined.

(** ** Ingestion, once more *)

(** X19.  [remember] calls the classifier exactly once, first, and never
    again; it never uses the chat and never runs a query.  In every run
    the events it adds are the classifier call, followed by nothing, by
    the connection, or by the connection and the INSERT of one Note; and
    the engine is left as that one call left it. *)
Theorem remember_calls_classifier_once
    (C : Collaborators) (request : ThoughtRequest) (w : World C) :
  exists evs,
    trace (snd (remember C request w))
    = trace w ++ EvGenerate (classifier_prompt request) :: evs /\
    (evs = [] \/ evs = [EvConnect] \/ exists n, evs = [EvConnect; EvInsert n]) /\
    engine (snd (remember C request w))
    = snd (generate_content C (classifier_prompt request) (engine w)).
Proof.
  destruct (remember C request w) as [o w'] eqn:E. cbn [snd].
  unfold remember, remember_body, client_generate_content, loads_text,
    method_get, connect, insert_note, try_except, bind, emit, with_engine,
    with_db, lift, raise, ret in E.
  cbn [db engine trace] in E.
  destruct (generate_content C (classifier_prompt request) (engine w))
    as [[e|[s|]] g]; cbn [db engine trace snd] in *;
    try (injection E as <- <-; exists []; cbn [trace engine];
         split; [reflexivity|]; split; [now left | reflexivity]).
  destruct (json_loads C s) as [e|parsed]; cbn [db engine trace] in E;
    try (injection E as <- <-; exists []; cbn [trace engine];
         split; [reflexivity|]; split; [now left | reflexivity]).
  destruct parsed as [| | | | | |members];
    try (injection E as <- <-; exists []; cbn [trace engine];
         split; [reflexivity|]; split; [now left | reflexivity]).
  destruct (dict_get members (lit "tags")) as [x|]; cbn [db engine trace] in E;
    (destruct (sqlite3_connect C (db w)) as [e|]; cbn [db engine trace] in E;
     [ injection E as <- <-; exists [EvConnect]; cbn [trace engine];
       rewrite <- app_assoc; split; [reflexivity|];
       split; [right; now left | reflexivity]
     | match type of E with
       | context [conn_insert C ?n (db w)] =>
           destruct (conn_insert C n (db w)) as [e|d]
       end; cbn [db engine trace] in E; injection E as <- <-;
       [ exists [EvConnect]; cbn [trace engine];
         rewrite <- app_assoc; split; [reflexivity|];
         split; [right; now left | reflexivity]
       | eexists [EvConnect; EvInsert _]; cbn [trace engine];
         rewrite <- !app_assoc; split; [reflexivity|];
         split; [right; right; eexists; reflexivity | reflexivity] ] ]).
Qed.

(** X20.  An answer of the classifier that is JSON but not an object is a
    failure of the request: [.get] raises [AttributeError], the caller
    gets the error 500 with the text "'<type>' object has no attribute
    'get'", and nothing is persisted, the store not even opened. *)
Theorem answer_that_is_no_object_fails
    (C : Collaborators) (request : ThoughtRequest) (w : World C)
    (s : pystr) (g : Engine C) (v : JValue) :
  generate_content C (classifier_prompt request) (engine w) = (inr (Some s), g) ->
  json_loads C s = inr v ->
  (forall members, v <> JObj members) ->
  remember C request w
  = (Raise (HTTPException 500
              (lit "'" ++ type_name v ++ lit "' object has no attribute 'get'")),
     Build_World (db w) g (trace w ++ [EvGenerate (classifier_prompt request)])).
Proof.
  intros Hg Hl Hv.
  unfold remember, remember_body, client_generate_content, loads_text,
    method_get, try_except, bind, emit, with_engine, lift, raise, ret.
  cbn [db engine trace]. rewrite Hg. cbn [db engine trace]. rewrite Hl.
  destruct v; try reflexivity. now destruct (Hv members).
Qed.

Lemma answer_that_is_no_object_fails_witness :
  Stub.loads (Stub.encode (JArr [JStr (lit "health")]))
  = inr (JArr [JStr (lit "health")]) /\
  remember Stub.collaborators {| text := lit "Dentist on Tuesday" |}
    (Stub.world []
       {| Stub.classifier := inr (Some (Stub.encode (JArr [JStr (lit "health")])));
          Stub.script := [] |})
  = (Raise (HTTPException 500 (lit "'list' object has no attribute 'get'")),
     Build_World (C := Stub.collaborators) []
       {| Stub.classifier := inr (Some (Stub.encode (JArr [JStr (lit "health")])));
          Stub.script := [] |}
       [EvGenerate (classifier_prompt {| text := lit "Dentist on Tuesday" |})]).
Proof.
  split; [reflexivity|].
  apply (answer_that_is_no_object_fails Stub.collaborators
           {| text := lit "Dentist on Tuesday" |}
           (Stub.world []
              {| Stub.classifier :=
                   inr (Some (Stub.encode (JArr [JStr (lit "health")])));
                 Stub.script := [] |})
           (Stub.encode (JArr [JStr (lit "health")])) _
           (JArr [JStr (lit "health")]) eq_refl eq_refl).
  discriminate.
Defined.

(** X21.  The tags of the classifier are taken as they come.  When the
    object it answers with has a "tags" key, the value under it, of
    whatever type (a string, empty or not, a number, null), is what
    [remember] binds to the INSERT and what it reports to the caller,
    unchanged; once the INSERT is committed the request is answered
    "saved" and the store is the one the INSERT made. *)
Theorem tags_are_taken_verbatim
    (C : Collaborators) (request : ThoughtRequest) (w : World C)
    (s : pystr) (g : Engine C) (members : dict JValue) (v : JValue) (d : Db C) :
  generate_content C (classifier_prompt request) (engine w) = (inr (Some s), g) ->
  json_loads C s = inr (JObj members) ->
  dict_get members (lit "tags") = Some v ->
  sqlite3_connect C (db w) = None ->
  conn_insert C {| note_text := text request;
                   note_tags := v;
                   note_timestamp := strftime_now C (lit "%Y-%m-%d %H:%M:%S") |}
    (db w) = inr d ->
  remember C request w
  = (Ret {| status := lit "saved"; tags := v |},
     Build_World d g
       (trace w ++ [EvGenerate (classifier_prompt request);
                    EvConnect;
                    EvInsert {| note_text := text request;
                                note_tags := v;
                                note_timestamp :=
                                  strftime_now C (lit "%Y-%m-%d %H:%M:%S") |}])).
Proof.
  intros Hg Hl Hd Hc Hi.
  unfold remember, remember_body, client_generate_content, loads_text,
    method_get, connect, insert_note, try_except, bind, emit, with_engine,
    with_db, lift, raise, ret.
  cbn [db engine trace]. rewrite Hg. cbn [db engine trace]. rewrite Hl, Hd.
  cbn [db engine trace]. rewrite Hc. cbn [db engine trace]. rewrite Hi.
  cbn [db engine trace]. now rewrite <- !app_assoc.
Qed.

Lemma tags_are_taken_verbatim_witness :
  Stub.loads (Stub.encode (JObj [(lit "tags", JNull)]))
  = inr (JObj [(lit "tags", JNull)]) /\
  remember Stub.collaborators {| text := lit "Dentist on Tuesday" |}
    (Stub.world [] (Stub.classifying [(lit "tags", JNull)]))
  = (Ret {| status := lit "saved"; tags := JNull |},
     Build_World (C := Stub.collaborators)
       [ {| note_text := lit "Dentist on Tuesday";
            note_tags := JNull;
            note_timestamp := lit "2026-11-04 09:30:00" |} ]
       (Stub.classifying [(lit "tags", JNull)])
       [EvGenerate (classifier_prompt {| text := lit "Dentist on Tuesday" |});
        EvConnect;
        EvInsert {| note_text := lit "Dentist on Tuesday";
                    note_tags := JNull;
                    note_timestamp := lit "2026-11-04 09:30:00" |}]).
Proof.
  split; [reflexivity|].
  exact (tags_are_taken_verbatim Stub.collaborators
           {| text := lit "Dentist on Tuesday" |}
           (Stub.world [] (Stub.classifying [(lit "tags", JNull)]))
           (Stub.encode (JObj [(lit "tags", JNull)]))
           (Stub.classifying [(lit "tags", JNull)])
           [(lit "tags", JNull)] JNull
           [ {| note_text := lit "Dentist on Tuesday";
                note_tags := JNull;
                note_timestamp := lit "2026-11-04 09:30:00" |} ]
           eq_refl eq_refl eq_refl eq_refl eq_refl).
Defined.
